(** * Agentic finance workshop: the metrics lookup tools and the round-robin team

    The notebooks of this repository do two things that can be stated
    precisely.  The finance demo defines two lookup tools,
    [get_latest_metrics] and [get_all_metrics], over a table of
    pre-computed ratios guarded by [_symbol_is_valid]; and both notebooks
    configure a round-robin team of agents with a termination condition.

    The first part of this file embeds the lookup tools as they are written
    (module globals, dictionary indexing that can raise, [max] over the date
    keys, [json.dumps]).  The second part models the turn scheduler and the
    termination conditions that the notebooks configure. *)

From Stdlib Require Import String Ascii List Bool Arith NArith Lia.
From Stdlib Require Import Permutation.
From Stdlib Require PrimFloat.
Import ListNotations.

Set Warnings "-register-all,-inexact-float,-abstract-large-number".

Local Open Scope list_scope.
Local Open Scope string_scope.

(* ===================================================================== *)
(** ** Strings as Python compares them *)
(* ===================================================================== *)

(** A Python [str] is modelled by a [string] with one character per code
    point; the tickers, dates and metric names of the workshop data are
    ASCII.  [==] is equality, [<] is the lexicographic order on code
    points, which is [String.compare]. *)
Module PyStr.

Definition gt (a b : string) : bool :=
  match String.compare a b with Gt => true | _ => false end.

Definition le (a b : string) : Prop := String.compare a b <> Gt.

(** [needle in haystack] on two strings: substring search, case-sensitive. *)
Fixpoint contains (needle haystack : string) : bool :=
  String.prefix needle haystack ||
  match haystack with
  | EmptyString => false
  | String _ rest => contains needle rest
  end.

End PyStr.

(* ===================================================================== *)
(** ** JSON values and [json.dumps] *)
(* ===================================================================== *)

Module Json.

(** What [json.load] builds.  The tools never compute with a number, they
    only hand it back to [json.dumps]; a number is therefore held as the
    literal that [json.dumps] prints for it.  An object is its list of
    items in insertion order, which is the order [json.dumps] writes. *)
Inductive json : Type :=
| JNull
| JBool (b : bool)
| JNumber (literal : string)
| JString (s : string)
| JArray (elems : list json)
| JObject (items : list (string * json)).

Definition dquote : string := String "034"%char EmptyString.

Definition hex_digit (n : N) : ascii :=
  if (n <? 10)%N then ascii_of_N (48 + n) else ascii_of_N (87 + n).

(** [ESCAPE_DCT] of the encoder, and the [\u00xx] form for the other
    characters outside the printable ASCII range. *)
Definition escape_char (c : ascii) : string :=
  let n := N_of_ascii c in
  if (n =? 92)%N then "\\"
  else if (n =? 34)%N then "\" ++ dquote
  else if (n =? 8)%N then "\b"
  else if (n =? 12)%N then "\f"
  else if (n =? 10)%N then "\n"
  else if (n =? 13)%N then "\r"
  else if (n =? 9)%N then "\t"
  else if ((32 <=? n) && (n <=? 126))%N then String c EmptyString
  else "\u00" ++ String (hex_digit (n / 16)) (String (hex_digit (n mod 16)) EmptyString).

Fixpoint escape (s : string) : string :=
  match s with
  | EmptyString => EmptyString
  | String c rest => escape_char c ++ escape rest
  end.

Definition encode_basestring_ascii (s : string) : string :=
  dquote ++ escape s ++ dquote.

(** [json.dumps] with its default separators [", "] and [": "]. *)
Fixpoint dumps (v : json) : string :=
  match v with
  | JNull => "null"
  | JBool true => "true"
  | JBool false => "false"
  | JNumber literal => literal
  | JString s => encode_basestring_ascii s
  | JArray elems =>
      "[" ++
      (fix dumps_elems (l : list json) : string :=
         match l with
         | [] => ""
         | x :: rest =>
             match rest with
             | [] => dumps x
             | _ :: _ => dumps x ++ ", " ++ dumps_elems rest
             end
         end) elems
      ++ "]"
  | JObject items =>
      "{" ++
      (fix dumps_items (l : list (string * json)) : string :=
         match l with
         | [] => ""
         | (k, x) :: rest =>
             match rest with
             | [] => encode_basestring_ascii k ++ ": " ++ dumps x
             | _ :: _ =>
                 encode_basestring_ascii k ++ ": " ++ dumps x ++ ", "
                 ++ dumps_items rest
             end
         end) items
      ++ "}"
  end.

End Json.

(* ===================================================================== *)
(** ** Python dictionaries, exceptions and module globals *)
(* ===================================================================== *)

Module Py.

Import Json.

(** A [dict] with string keys: its items in insertion order.  Indexing and
    membership look at the first item with the key. *)
Definition dict (V : Type) : Type := list (string * V).

Definition keys {V} (d : dict V) : list string := map fst d.

Fixpoint lookup {V} (k : string) (d : dict V) : option V :=
  match d with
  | [] => None
  | (k', v) :: rest => if String.eqb k k' then Some v else lookup k rest
  end.

(** [k in d] *)
Definition dict_contains {V} (k : string) (d : dict V) : bool :=
  match lookup k d with Some _ => true | None => false end.

(** [x in l] for a list of strings *)
Fixpoint list_contains (x : string) (l : list string) : bool :=
  match l with
  | [] => false
  | y :: rest => String.eqb x y || list_contains x rest
  end.

Inductive exn : Type := KeyError | ValueError.

Inductive outcome (A : Type) : Type :=
| Return (a : A)
| Raise (e : exn).
Arguments Return {A} a.
Arguments Raise {A} e.

(** The module-level names the tools read. *)
Record globals : Type := mkGlobals {
  METRICS : dict (dict json);
  SYMBOLS : list string
}.

(** A computation reads and may rebind the globals, and returns or raises. *)
Definition py (A : Type) : Type := globals -> outcome A * globals.

Definition ret {A} (a : A) : py A := fun g => (Return a, g).

Definition raise {A} (e : exn) : py A := fun g => (Raise e, g).

Definition bind {A B} (c : py A) (k : A -> py B) : py B :=
  fun g =>
    match c g with
    | (Return a, g') => k a g'
    | (Raise e, g') => (Raise e, g')
    end.

Definition global {A} (name : globals -> A) : py A :=
  fun g => (Return (name g), g).

Definition lift {A} (o : outcome A) : py A := fun g => (o, g).

(** [d[k]] *)
Definition getitem {V} (d : dict V) (k : string) : outcome V :=
  match lookup k d with
  | Some v => Return v
  | None => Raise KeyError
  end.

(** [max(iterable)] on strings: [ValueError] on an empty iterable, otherwise
    the first of the largest items. *)
Definition max (l : list string) : outcome string :=
  match l with
  | [] => Raise ValueError
  | x :: rest =>
      Return (fold_left (fun best y => if PyStr.gt y best then y else best)
                        rest x)
  end.

End Py.

Declare Scope py_scope.
Delimit Scope py_scope with py.
Notation "x <- c ;; k" := (Py.bind c (fun x => k))
  (at level 61, c at next level, right associativity) : py_scope.

(* ===================================================================== *)
(** ** The lookup tools of the finance demo *)
(* ===================================================================== *)

Module Tools.

Import Json Py.
Local Open Scope py_scope.

(** The cell that loads the data: [METRICS] is whatever [metrics.json]
    holds (symbol, then date, then the metrics of that date), [SYMBOLS] is
    the literal whitelist. *)
Definition load (metrics_json : dict (dict json)) : globals :=
  {| METRICS := metrics_json;
     SYMBOLS := ["TSLA.US"; "AMZN.US"; "AAPL.US"] |}.

(** The value of the guard under given globals. *)
Definition valid (g : globals) (symbol : string) : bool :=
  list_contains symbol (SYMBOLS g) && dict_contains symbol (METRICS g).

(** [symbol in SYMBOLS and symbol in METRICS] *)
Definition _symbol_is_valid (symbol : string) : py bool :=
  symbols <- global SYMBOLS ;;
  metrics <- global METRICS ;;
  ret (list_contains symbol symbols && dict_contains symbol metrics).

(** Behind the guard: [latest_date = max(METRICS[symbol])],
    [latest_data = METRICS[symbol][latest_date]], and the result is
    [json.dumps({latest_date: latest_data})]. *)
Definition get_latest_metrics (symbol : string) : py string :=
  valid <- _symbol_is_valid symbol ;;
  if negb valid then ret "{}"
  else
    metrics <- global METRICS ;;
    per_date <- lift (getitem metrics symbol) ;;
    latest_date <- lift (max (keys per_date)) ;;
    metrics <- global METRICS ;;
    per_date <- lift (getitem metrics symbol) ;;
    latest_data <- lift (getitem per_date latest_date) ;;
    ret (dumps (JObject [(latest_date, latest_data)])).

(** Behind the guard: [json.dumps(METRICS[symbol])]. *)
Definition get_all_metrics (symbol : string) : py string :=
  valid <- _symbol_is_valid symbol ;;
  if negb valid then ret "{}"
  else
    metrics <- global METRICS ;;
    per_date <- lift (getitem metrics symbol) ;;
    ret (dumps (JObject per_date)).

(** The metrics lookup contract of the specification:
    [lookup(symbol, scope)] with scope "latest" or "all". *)
Inductive scope : Type := Latest | All.

Definition metrics_lookup (symbol : string) (sc : scope) : py string :=
  match sc with
  | Latest => get_latest_metrics symbol
  | All => get_all_metrics symbol
  end.

(** Two calls in a row, as the executor agent may issue them. *)
Definition call_twice {A} (tool : py A) : py (A * A) :=
  first <- tool ;;
  second <- tool ;;
  ret (first, second).

(** *** A table in the shape of [metrics.json] *)

(** Writes a JSON text with apostrophes for its double quotes. *)
Fixpoint q (s : string) : string :=
  match s with
  | EmptyString => EmptyString
  | String c rest =>
      String (if Ascii.eqb c "'"%char then "034"%char else c) (q rest)
  end.

(** The 2025-03-31 row of TSLA.US is the one the notebook prints; the other
    rows only give the table more than one date and more than one symbol. *)
Definition tsla_2025_03_31 : json :=
  JObject [("current_ratio", JNumber "2.0"); ("quick_ratio", JNumber "1.54");
           ("cash_ratio", JNumber "1.24"); ("debt_to_equity", JNumber "0.67");
           ("free_cash_flow", JNumber "664000000");
           ("fcf_margin", JNumber "0.03"); ("net_margin", JNumber "0.02");
           ("shares_out", JNumber "3521000000")].

Definition sample_metrics : dict (dict json) :=
  [("TSLA.US", [("2024-12-31", JObject [("current_ratio", JNumber "2.02")]);
                ("2025-03-31", tsla_2025_03_31);
                ("2024-09-30", JObject [("current_ratio", JNumber "1.84")])]);
   ("AAPL.US", [("2025-03-29", JObject [("current_ratio", JNumber "0.82")])]);
   ("AMZN.US", []);
   ("MSFT.US", [("2025-03-31", JObject [("current_ratio", JNumber "1.37")])])].

End Tools.

(* ===================================================================== *)
(** ** The round-robin team *)
(* ===================================================================== *)

Module Chat.

Local Open Scope list_scope.
Local Open Scope nat_scope.

(** *** Data model *)

Record Message : Type := mkMessage {
  source : string;    (* the emitting participant's name, or "user" *)
  content : string;
  index : nat         (* position in the transcript *)
}.

Definition Transcript : Type := list Message.

(** A participant is named and stateless between turns: given the
    transcript so far it produces the contents of zero or more messages, or
    its invocation fails ([None]). *)
Record Participant : Type := mkParticipant {
  name : string;
  invoke : Transcript -> option (list string)
}.

(** Which condition stopped a run. *)
Inductive Reason : Type := CountBound | ContentMatch.

(** Modelled from the spec: the termination conditions of the imported
    agent framework ([MaxMessageTermination], [TextMentionTermination] and
    their [|]), which the notebooks only construct.  A condition instance
    owns its state: the running counter of a message-count bound, the
    Armed/Fired flag of a content match. *)
Inductive TerminationCondition : Type :=
| CountCondition (threshold count : nat)
| MentionCondition (marker : string) (fired : bool)
| OrCondition (first second : TerminationCondition).

Definition MaxMessageTermination (max_messages : nat) : TerminationCondition :=
  CountCondition max_messages 0.

Definition TextMentionTermination (text : string) : TerminationCondition :=
  MentionCondition text false.

Notation "a |' b" := (OrCondition a b) (at level 50, left associativity).

(** At the start of a run every counter is zero and every flag is Armed. *)
Fixpoint reset (c : TerminationCondition) : TerminationCondition :=
  match c with
  | CountCondition threshold _ => CountCondition threshold 0
  | MentionCondition marker _ => MentionCondition marker false
  | OrCondition a b => OrCondition (reset a) (reset b)
  end.

(** Modelled from the spec: [evaluate], the single capability of a
    termination condition, called with each message as it is appended.
    - Message-count bound: the counter is incremented once per message,
      true once it reaches the threshold.
    - Content match: true if the content of the message contains the marker
      (case-sensitive substring); Fired is kept once reached.
    - OR: both children see the message, in a fixed order; true if any
      child is true, the first true child names the reason. *)
Fixpoint evaluate (c : TerminationCondition) (m : Message)
  : TerminationCondition * option Reason :=
  match c with
  | CountCondition threshold count =>
      (CountCondition threshold (S count),
       if threshold <=? S count then Some CountBound else None)
  | MentionCondition marker fired =>
      let now := fired || PyStr.contains marker (content m) in
      (MentionCondition marker now, if now then Some ContentMatch else None)
  | OrCondition a b =>
      let (a', ra) := evaluate a m in
      let (b', rb) := evaluate b m in
      (OrCondition a' b', match ra with Some r => Some r | None => rb end)
  end.

(** A non-positive message-count threshold is a configuration error. *)
Fixpoint well_configured (c : TerminationCondition) : bool :=
  match c with
  | CountCondition threshold _ => 1 <=? threshold
  | MentionCondition _ _ => true
  | OrCondition a b => well_configured a && well_configured b
  end.

Inductive Status : Type :=
| StoppedBy (reason : Reason)
| Exhausted
| ParticipantInvocationError (who : string)
| ConfigurationError.

(** What a run returns: the final transcript and the [stopped_by]
    indicator; [invocations] records each participant invocation that was
    issued, as the name of the participant and the length of the transcript
    it was given. *)
Record RunResult : Type := mkRunResult {
  transcript : Transcript;
  stopped_by : Status;
  invocations : list (string * nat)
}.

Definition logged (who : string) (seen : nat) (r : RunResult) : RunResult :=
  {| transcript := transcript r;
     stopped_by := stopped_by r;
     invocations := (who, seen) :: invocations r |}.

(** *** The scheduler *)

(** Modelled from the spec: appending the messages of one turn.  Each
    message is appended and the termination condition is evaluated right
    after that append; the run stops at once when it is true, so the
    contents still pending in the turn are not appended. *)
Fixpoint deliver (who : string) (produced : list string) (tr : Transcript)
  (c : TerminationCondition)
  : Transcript * TerminationCondition * option Reason :=
  match produced with
  | [] => (tr, c, None)
  | x :: pending =>
      let m := {| source := who; content := x; index := length tr |} in
      match evaluate c m with
      | (c', Some reason) => (tr ++ [m], c', Some reason)
      | (c', None) => deliver who pending (tr ++ [m]) c'
      end
  end.

(** Modelled from the spec: the round-robin loop of the imported
    [RoundRobinGroupChat], which is not part of this repository.  Turn
    number [turn] belongs to the participant at position
    [turn mod length participants]; [max_turns] is the hard cap, counted in
    turns.  A run is not cancelled from outside here. *)
Fixpoint schedule (max_turns : nat) (participants : list Participant)
  (turn : nat) (tr : Transcript) (c : TerminationCondition) : RunResult :=
  match max_turns with
  | 0 => {| transcript := tr; stopped_by := Exhausted; invocations := [] |}
  | S remaining =>
      match nth_error participants (turn mod length participants) with
      | None =>
          {| transcript := tr; stopped_by := ConfigurationError;
             invocations := [] |}
      | Some p =>
          logged (name p) (length tr)
            match invoke p tr with
            | None =>
                {| transcript := tr;
                   stopped_by := ParticipantInvocationError (name p);
                   invocations := [] |}
            | Some produced =>
                match deliver (name p) produced tr c with
                | (tr', _, Some reason) =>
                    {| transcript := tr'; stopped_by := StoppedBy reason;
                       invocations := [] |}
                | (tr', c', None) =>
                    schedule remaining participants (S turn) tr' c'
                end
            end
      end
  end.

Definition seed (task : string) : Message :=
  {| source := "user"; content := task; index := 0 |}.

Record RoundRobinGroupChat : Type := mkTeam {
  participants : list Participant;
  termination_condition : TerminationCondition
}.

(** Modelled from the spec: one run of a team on a task.  An empty
    participant list or a non-positive threshold is refused before any turn
    executes. *)
Definition run (max_turns : nat) (team : RoundRobinGroupChat) (task : string)
  : RunResult :=
  match participants team with
  | [] =>
      {| transcript := []; stopped_by := ConfigurationError;
         invocations := [] |}
  | _ :: _ =>
      if well_configured (termination_condition team) then
        schedule max_turns (participants team) 0 [seed task]
                 (reset (termination_condition team))
      else
        {| transcript := []; stopped_by := ConfigurationError;
           invocations := [] |}
  end.

(** The messages of a run after the seed. *)
Definition replies (r : RunResult) : list Message := tl (transcript r).

(** *** What the notebooks configure *)

(** An agent answers through a language model, which is opaque here. *)
Definition AssistantAgent (agent_name : string)
  (model : Transcript -> option (list string)) : Participant :=
  {| name := agent_name; invoke := model |}.

Definition termination : TerminationCondition :=
  TextMentionTermination "APPROVE" |' MaxMessageTermination 12.

Definition executor_chat (ExecutorWorker Critic : Participant)
  : RoundRobinGroupChat :=
  {| participants := [ExecutorWorker; Critic];
     termination_condition := termination |}.

Definition team (price_watcher news_summarizer risk_officer trader_bot
                   : Participant) : RoundRobinGroupChat :=
  {| participants := [price_watcher; news_summarizer; risk_officer; trader_bot];
     termination_condition := MaxMessageTermination 6 |}.

(** *** Reference notions for stating what a run does *)

(** The messages of one turn as they enter a transcript of length [start]. *)
Fixpoint stamp (who : string) (produced : list string) (start : nat)
  : list Message :=
  match produced with
  | [] => []
  | x :: pending =>
      {| source := who; content := x; index := start |}
      :: stamp who pending (S start)
  end.

(** What the participants produce in [max_turns] turns when nothing stops
    them, and how that ends: [Exhausted] after the last turn, or the error
    of the first invocation that fails. *)
Fixpoint production (max_turns : nat) (participants : list Participant)
  (turn : nat) (tr : Transcript) : list Message * Status :=
  match max_turns with
  | 0 => ([], Exhausted)
  | S remaining =>
      match nth_error participants (turn mod length participants) with
      | None => ([], ConfigurationError)
      | Some p =>
          match invoke p tr with
          | None => ([], ParticipantInvocationError (name p))
          | Some produced =>
              let ms := stamp (name p) produced (length tr) in
              let (later, st) :=
                production remaining participants (S turn) (tr ++ ms) in
              (ms ++ later, st)
          end
      end
  end.

(** The condition after it has seen all of [msgs]. *)
Definition observe (c : TerminationCondition) (msgs : list Message)
  : TerminationCondition :=
  fold_left (fun c m => fst (evaluate c m)) msgs c.

(** The 1-based position in [msgs] of the first message at which the
    condition is true, and the reason it gives there. *)
Fixpoint first_fire (c : TerminationCondition) (msgs : list Message)
  : option (nat * Reason) :=
  match msgs with
  | [] => None
  | m :: rest =>
      match evaluate c m with
      | (_, Some reason) => Some (1, reason)
      | (c', None) =>
          match first_fire c' rest with
          | Some (k, reason) => Some (S k, reason)
          | None => None
          end
      end
  end.

(** The 1-based position in [msgs] of the first message whose content
    contains [marker]. *)
Fixpoint first_mention (marker : string) (msgs : list Message) : option nat :=
  match msgs with
  | [] => None
  | m :: rest =>
      if PyStr.contains marker (content m) then Some 1
      else option_map S (first_mention marker rest)
  end.

(** The earlier of a count bound [n] and a first mention, if any. *)
Definition earliest (n : nat) (mention : option nat) : nat :=
  match mention with
  | Some i => Nat.min n i
  | None => n
  end.

(** The earlier of two firings; the first one on a tie. *)
Definition sooner (x y : option (nat * Reason)) : option (nat * Reason) :=
  match x, y with
  | Some (i, rx), Some (j, ry) => if i <=? j then Some (i, rx) else Some (j, ry)
  | Some hit, None => Some hit
  | None, _ => y
  end.

(** The reason the notebook's [termination] gives when it stops a run whose
    production first mentions the marker at [mention]. *)
Definition reason_of (mention : option nat) : Reason :=
  match mention with
  | Some i => if i <=? 12 then ContentMatch else CountBound
  | None => CountBound
  end.

(** A participant that produces at least one message at every turn. *)
Definition always_speaks (p : Participant) : Prop :=
  forall tr, exists x more, invoke p tr = Some (x :: more).

(** A participant that produces exactly one message at every turn. *)
Definition speaks_once (p : Participant) : Prop :=
  forall tr, exists x, invoke p tr = Some [x].

(** *** Participants for concrete runs *)

(** Says the same thing whatever the transcript. *)
Definition parrot (agent_name : string) (says : list string) : Participant :=
  AssistantAgent agent_name (fun _ => Some says).

(** Says [early] while the transcript is shorter than [n], [late] after. *)
Definition switcher (agent_name : string) (n : nat) (early late : list string)
  : Participant :=
  AssistantAgent agent_name
    (fun tr => Some (if length tr <? n then early else late)).

(** Fails once the transcript has [n] messages. *)
Definition fragile (agent_name : string) (n : nat) (says : list string)
  : Participant :=
  AssistantAgent agent_name
    (fun tr => if length tr <? n then Some says else None).

End Chat.

(* ===================================================================== *)
(** ** More of Python's strings and lists *)
(* ===================================================================== *)

Module PyText.

Definition nl : string := String "010"%char EmptyString.

(** [s.isascii()] *)
Fixpoint is_ascii (s : string) : bool :=
  match s with
  | EmptyString => true
  | String c rest => (N_of_ascii c <? 128)%N && is_ascii rest
  end.

(** [str.upper] on ASCII text: the letters a to z go to A to Z, every other
    ASCII character stays.  What Python does to the other code points is not
    followed here, so the statements about [upper] are for ASCII strings. *)
Definition upper_char (c : ascii) : ascii :=
  let n := N_of_ascii c in
  if ((97 <=? n) && (n <=? 122))%N then ascii_of_N (n - 32) else c.

Fixpoint upper (s : string) : string :=
  match s with
  | EmptyString => EmptyString
  | String c rest => String (upper_char c) (upper rest)
  end.

(** [sep.join(parts)] *)
Fixpoint join (sep : string) (parts : list string) : string :=
  match parts with
  | [] => ""
  | x :: rest =>
      match rest with
      | [] => x
      | _ :: _ => x ++ sep ++ join sep rest
      end
  end.

(** [d.get(k, default)] *)
Definition dict_get {V} (d : Py.dict V) (k : string) (default : V) : V :=
  match Py.lookup k d with
  | Some v => v
  | None => default
  end.

(** The text [json.dumps] writes for one item of an object. *)
Definition item_text (item : string * Json.json) : string :=
  Json.encode_basestring_ascii (fst item) ++ ": " ++ Json.dumps (snd item).

(** Two strings that differ at most in the case of their ASCII letters. *)
Inductive case_variant : string -> string -> Prop :=
| cv_empty : case_variant "" ""
| cv_same (c : ascii) (s t : string) :
    case_variant s t -> case_variant (String c s) (String c t)
| cv_lower (c : ascii) (s t : string) :
    (65 <= N_of_ascii c <= 90)%N -> case_variant s t ->
    case_variant (String c s) (String (ascii_of_N (N_of_ascii c + 32)) t)
| cv_upper (c : ascii) (s t : string) :
    (65 <= N_of_ascii c <= 90)%N -> case_variant s t ->
    case_variant (String (ascii_of_N (N_of_ascii c + 32)) s) (String c t).

End PyText.

(* ===================================================================== *)
(** ** Dates written YYYY-MM-DD *)
(* ===================================================================== *)

(** The date keys of the metrics table are "YYYY-MM-DD" texts, as the
    comment in [get_latest_metrics] says.  This is that format, to state
    what the string order means for such keys. *)
Module IsoDate.

Local Open Scope nat_scope.

Record date : Type := mkDate { year : nat; month : nat; day : nat }.

Definition well_formed (d : date) : Prop :=
  year d < 10000 /\ 1 <= month d <= 12 /\ 1 <= day d <= 31.

Definition digit (n : nat) : ascii := ascii_of_nat (48 + n).

Definition two_digits (n : nat) (after : string) : string :=
  String (digit (n / 10)) (String (digit (n mod 10)) after).

Definition four_digits (n : nat) (after : string) : string :=
  two_digits (n / 100) (two_digits (n mod 100) after).

Definition dash (after : string) : string := String "-"%char after.

Definition text (d : date) : string :=
  four_digits (year d) (dash (two_digits (month d) (dash (two_digits (day d) "")))).

(** Chronological order. *)
Definition compare (a b : date) : comparison :=
  match Nat.compare (year a) (year b) with
  | Eq =>
      match Nat.compare (month a) (month b) with
      | Eq => Nat.compare (day a) (day b)
      | c => c
      end
  | c => c
  end.

Definition not_after (a b : date) : Prop := compare a b <> Gt.

End IsoDate.

(* ===================================================================== *)
(** ** The tools of the introductory notebook *)
(* ===================================================================== *)

Module Intro.

Import PrimFloat.
Import Py PyText.

(** The state of the [random] module: the values [random.random()] will
    return, and how many have been taken. *)
Record random_state : Type := mkRandom {
  draws : nat -> float;
  taken : nat
}.

(** [random.random()] *)
Definition random (st : random_state) : float * random_state :=
  (draws st (taken st), {| draws := draws st; taken := S (taken st) |}).

(** [random.uniform(a, b)], which is [a + (b - a) * random()]. *)
Definition uniform (a b : float) (st : random_state) : float * random_state :=
  let (u, st') := random st in
  (PrimFloat.add a (PrimFloat.mul (PrimFloat.sub b a) u), st').

Definition price_table : dict float :=
  [("AAPL", 180.15%float); ("MSFT", 410.22%float); ("GOOG", 156.42%float)].

(** [price_table.get(ticker.upper(), random.uniform(50, 500))]: both
    arguments are evaluated before [get] is called. *)
Definition get_stock_price (ticker : string) (st : random_state)
  : float * random_state :=
  let key := upper ticker in
  let (fallback, st') := uniform 50%float 500%float st in
  (dict_get price_table key fallback, st').

(** The third headline has a non-breaking hyphen (U+2011), held here as its
    three UTF-8 bytes; headline texts are only passed on. *)
Definition nb_hyphen : string :=
  String "226"%char (String "128"%char (String "145"%char EmptyString)).

Definition sample_news : dict (list string) :=
  [("AAPL",
    ["Apple supplier faces production hiccup, cutting quarterly output 8%";
     "Analysts debate impact of slower iPhone upgrade cycle";
     "EU launches investigation into iOS anti" ++ nb_hyphen ++ "steering rules"])].

Definition get_news_headlines (ticker : string) : list string :=
  dict_get sample_news (upper ticker) ["No material headlines found."].

(** The cell that triggers the alert. *)
Definition yesterday_close : float := 192.00%float.

Definition now_price (st : random_state) : float * random_state :=
  get_stock_price "AAPL" st.

Definition pct_move (price : float) : float :=
  PrimFloat.mul
    (PrimFloat.div (PrimFloat.sub price yesterday_close) yesterday_close)
    100%float.

(** The test of [team_demo]: [pct_move < -5], the branch that alerts the
    team. *)
Definition alerts (price : float) : bool :=
  PrimFloat.ltb (pct_move price) (-5)%float.

End Intro.

(* ===================================================================== *)
(** ** The chain of the finance demo *)
(* ===================================================================== *)

Module Pipeline.

Import Py PyText.

(** The planner's system message, an f-string over [SYMBOLS]. *)
Definition PLANNER_SYS (g : globals) : string :=
  nl ++ "Rewrite the user question briefly." ++ nl ++
  "Pick ONE ticker from: " ++ join ", " (SYMBOLS g) ++ "." ++ nl ++
  "Return JSON ONLY: {'refined':'...','symbol':'<ticker>','scope':'latest'|'all'}"
  ++ nl.

(** A message of a run result, as [answer] reads it. *)
Record AgentMessage : Type := mkAgentMessage {
  source : string;
  type : string;
  content : string
}.

Inductive error : Type := IndexError.

Inductive result (A : Type) : Type :=
| Ok (a : A)
| Error (e : error).
Arguments Ok {A} a.
Arguments Error {A} e.

(** [l[-1]] *)
Fixpoint last_item {A} (l : list A) : result A :=
  match l with
  | [] => Error IndexError
  | x :: rest =>
      match rest with
      | [] => Ok x
      | _ :: _ => last_item rest
      end
  end.

(** [m.source=='ExecutorWorker' and m.type=='TextMessage'] *)
Definition is_executor_text (m : AgentMessage) : bool :=
  String.eqb (source m) "ExecutorWorker" && String.eqb (type m) "TextMessage".

(** [[m for m in messages if ...][-1].content] *)
Definition executor_data (messages : list AgentMessage) : result string :=
  match last_item (filter is_executor_text messages) with
  | Ok data_msg => Ok (content data_msg)
  | Error e => Error e
  end.

(** The task handed to the financial agent. *)
Definition financial_task (q plan data : string) : string :=
  "user_question:" ++ q ++ nl ++ "refined:" ++ plan ++ nl ++
  "data_json:" ++ data.

(** [answer(q)].  The three runs are those of the planner, of the executor
    team and of the financial agent, each taken as the list of messages its
    result holds for a given task.  Of what [answer] prints, the final
    answer is the value here. *)
Definition answer (Planner executor_chat Financial : string -> list AgentMessage)
  (q : string) : result string :=
  match last_item (Planner q) with
  | Error e => Error e
  | Ok plan_msg =>
      let plan := content plan_msg in
      match executor_data (executor_chat plan) with
      | Error e => Error e
      | Ok data =>
          match last_item (Financial (financial_task q plan data)) with
          | Error e => Error e
          | Ok fin_msg => Ok (content fin_msg)
          end
      end
  end.

End Pipeline.

(* ===================================================================== *)
(** ** The team of the introductory notebook, as its run is recorded *)
(* ===================================================================== *)

Module TeamRun.

Local Open Scope list_scope.
Local Open Scope nat_scope.

(** The output kept in the introductory notebook shows two kinds of
    messages in a run: chat messages (TextMessage, ToolCallSummaryMessage)
    and agent events (ToolCallRequestEvent, ToolCallExecutionEvent).  The
    model of [Chat] follows the testable properties of the specification,
    which count the messages after the seed; this one follows the recorded
    run, where the bound of 6 is reached with the task message counted. *)
Inductive Kind : Type := ChatMessage | AgentEvent.

Record Message : Type := mkMessage {
  source : string;
  kind : Kind;
  type : string;
  content : string
}.

Definition Thread : Type := list Message.

(** What one turn of an agent yields: the events of its tool calls, then
    one chat message; each is given as its type and its content. *)
Record Response : Type := mkResponse {
  inner_messages : list (string * string);
  chat_message : string * string
}.

Record Participant : Type := mkParticipant {
  name : string;
  on_messages : Thread -> Response
}.

Definition is_chat (m : Message) : bool :=
  match kind m with
  | ChatMessage => true
  | AgentEvent => false
  end.

(** The number of chat messages among [msgs]. *)
Definition count_chat (msgs : list Message) : nat :=
  length (filter is_chat msgs).

(** The task enters the thread as a text message of "user". *)
Definition task_message (task : string) : Message :=
  {| source := "user"; kind := ChatMessage; type := "TextMessage";
     content := task |}.

(** The messages a turn adds to the thread, in the order they are shown. *)
Definition delta (p : Participant) (r : Response) : list Message :=
  map (fun e => {| source := name p; kind := AgentEvent;
                   type := fst e; content := snd e |})
      (inner_messages r)
  ++ [ {| source := name p; kind := ChatMessage;
          type := fst (chat_message r); content := snd (chat_message r) |} ].

(** Modelled from the spec: the round-robin loop of the imported
    [RoundRobinGroupChat] under a [MaxMessageTermination], read with the run
    the notebook records.  The condition observes every message appended to
    the thread, the task message included, and is evaluated when the task
    has been appended and after each turn; its counter counts chat messages
    and leaves agent events out; the run stops once the counter has reached
    [max_messages].  [fuel] bounds the turns of this definition only: the
    notebook passes no cap, and [None] means that the fuel ran out. *)
Fixpoint continue (fuel : nat) (max_messages : nat)
  (participants : list Participant) (turn : nat) (thread : Thread)
  (message_count : nat) : option Thread :=
  if max_messages <=? message_count then Some thread
  else
    match fuel with
    | 0 => None
    | S remaining =>
        match nth_error participants (turn mod length participants) with
        | None => None
        | Some p =>
            let added := delta p (on_messages p thread) in
            continue remaining max_messages participants (S turn)
                     (thread ++ added) (message_count + count_chat added)
        end
    end.

Definition run_stream (fuel : nat) (max_messages : nat)
  (participants : list Participant) (task : string) : option Thread :=
  continue fuel max_messages participants 0 [task_message task]
           (count_chat [task_message task]).

(** [team], with its [MaxMessageTermination(6)]. *)
Definition team (fuel : nat)
  (price_watcher news_summarizer risk_officer trader_bot : Participant)
  (task : string) : option Thread :=
  run_stream fuel 6 [price_watcher; news_summarizer; risk_officer; trader_bot]
             task.

(** *** The agents of the recorded run *)

(** An agent that answers with [first] while the thread has fewer than [n]
    messages and with [later] afterwards. *)
Definition scripted (agent_name : string) (n : nat) (first later : Response)
  : Participant :=
  {| name := agent_name;
     on_messages := fun thread => if length thread <? n then first else later |}.

Definition says (text : string) : Response :=
  {| inner_messages := []; chat_message := ("TextMessage", text) |}.

Definition calls_tools (summary : string) : Response :=
  {| inner_messages := [("ToolCallRequestEvent", "[FunctionCall(...)]");
                        ("ToolCallExecutionEvent", "[FunctionExecutionResult(...)]")];
     chat_message := ("ToolCallSummaryMessage", summary) |}.

Definition recorded_price_watcher : Participant :=
  scripted "PriceWatcher" 2 (calls_tools "180.15 ...") (says "**Analysis Summary:** ...").

Definition recorded_news_summarizer : Participant :=
  scripted "NewsSummarizer" 0 (says "") (says "Apple's stock dropped 6.2% intraday, ...").

Definition recorded_risk_officer : Participant :=
  scripted "RiskOfficer" 0 (says "") (calls_tools "180.15").

Definition recorded_trader_bot : Participant :=
  scripted "TraderBot" 0 (says "") (says "**Trade Action:** Hold ...").

(** The sources and types of the recorded run, in order. *)
Definition recorded_run : list (string * string) :=
  [("user", "TextMessage");
   ("PriceWatcher", "ToolCallRequestEvent");
   ("PriceWatcher", "ToolCallExecutionEvent");
   ("PriceWatcher", "ToolCallSummaryMessage");
   ("NewsSummarizer", "TextMessage");
   ("RiskOfficer", "ToolCallRequestEvent");
   ("RiskOfficer", "ToolCallExecutionEvent");
   ("RiskOfficer", "ToolCallSummaryMessage");
   ("TraderBot", "TextMessage");
   ("PriceWatcher", "TextMessage")].

End TeamRun.

(* ===================================================================== *)
(** * Properties *)
(* ===================================================================== *)

(** ** The string order *)

Module PyStrFacts.

Import PyStr.

Lemma ascii_compare_refl (a : ascii) : Ascii.compare a a = Eq.
Proof. unfold Ascii.compare. apply N.compare_refl. Qed.

Lemma ascii_compare_lt_trans (a b c : ascii) :
  Ascii.compare a b = Lt -> Ascii.compare b c = Lt -> Ascii.compare a c = Lt.
Proof.
  unfold Ascii.compare. rewrite !N.compare_lt_iff. apply N.lt_trans.
Qed.

Lemma compare_refl (s : string) : String.compare s s = Eq.
Proof.
  induction s as [|a s IH]; simpl; [reflexivity|].
  now rewrite ascii_compare_refl.
Qed.

Lemma compare_lt_trans (s1 : string) :
  forall s2 s3, String.compare s1 s2 = Lt -> String.compare s2 s3 = Lt ->
                String.compare s1 s3 = Lt.
Proof.
  induction s1 as [|a s1 IH]; intros [|b s2] [|c s3]; simpl;
    try discriminate; try reflexivity.
  destruct (Ascii.compare a b) eqn:Hab; try discriminate;
    destruct (Ascii.compare b c) eqn:Hbc; try discriminate; intros H12 H23.
  - apply Ascii.compare_eq_iff in Hab, Hbc. subst.
    rewrite ascii_compare_refl. eauto.
  - apply Ascii.compare_eq_iff in Hab. subst. now rewrite Hbc.
  - apply Ascii.compare_eq_iff in Hbc. subst. now rewrite Hab.
  - now rewrite (ascii_compare_lt_trans _ _ _ Hab Hbc).
Qed.

Lemma le_refl (s : string) : le s s.
Proof. unfold le. now rewrite compare_refl. Qed.

Lemma le_trans (s1 s2 s3 : string) : le s1 s2 -> le s2 s3 -> le s1 s3.
Proof.
  unfold le. intros H12 H23.
  destruct (String.compare s1 s2) eqn:E12; [| |congruence].
  - apply String.compare_eq_iff in E12. now subst.
  - destruct (String.compare s2 s3) eqn:E23; [| |congruence].
    + apply String.compare_eq_iff in E23. subst. now rewrite E12.
    + now rewrite (compare_lt_trans _ _ _ E12 E23).
Qed.

Lemma gt_false_le (a b : string) : gt a b = false -> le a b.
Proof. unfold gt, le. destruct (String.compare a b); congruence. Qed.

Lemma gt_true_le (a b : string) : gt a b = true -> le b a.
Proof.
  unfold gt, le. rewrite (String.compare_antisym b a).
  destruct (String.compare a b); simpl; congruence.
Qed.

Example contains_is_case_sensitive :
  contains "APPROVE" "I approve" = false /\
  contains "APPROVE" "ok, APPROVED." = true.
Proof. split; reflexivity. Qed.

End PyStrFacts.

(** ** The lookup tools *)

Module ToolsFacts.

Import Json Py Tools.

Example latest_tsla :
  fst (get_latest_metrics "TSLA.US" (load sample_metrics)) =
  Return (q "{'2025-03-31': {'current_ratio': 2.0, 'quick_ratio': 1.54, 'cash_ratio': 1.24, 'debt_to_equity': 0.67, 'free_cash_flow': 664000000, 'fcf_margin': 0.03, 'net_margin': 0.02, 'shares_out': 3521000000}}").
Proof. reflexivity. Qed.

Example all_aapl :
  fst (get_all_metrics "AAPL.US" (load sample_metrics)) =
  Return (q "{'2025-03-29': {'current_ratio': 0.82}}").
Proof. reflexivity. Qed.

Example all_tsla_keeps_order :
  fst (get_all_metrics "TSLA.US" (load sample_metrics)) =
  Return (q "{'2024-12-31': {'current_ratio': 2.02}, '2025-03-31': " ++
          dumps tsla_2025_03_31 ++ q ", '2024-09-30': {'current_ratio': 1.84}}").
Proof. reflexivity. Qed.

Example latest_unlisted :
  fst (get_latest_metrics "MSFT.US" (load sample_metrics)) = Return "{}".
Proof. reflexivity. Qed.

Example latest_empty_mapping :
  fst (get_latest_metrics "AMZN.US" (load sample_metrics)) = Raise ValueError.
Proof. reflexivity. Qed.

Example all_empty_mapping :
  fst (get_all_metrics "AMZN.US" (load sample_metrics)) = Return "{}".
Proof. reflexivity. Qed.

(** *** Dictionaries and [max] *)

Lemma lookup_key {V} (k : string) (d : dict V) :
  In k (keys d) -> exists v, lookup k d = Some v.
Proof.
  induction d as [|[k' v'] d IH]; simpl; [tauto|].
  intros [Hk | Hin].
  - subst. rewrite String.eqb_refl. eauto.
  - destruct (String.eqb k k'); eauto.
Qed.

Lemma fold_best_spec (rest : list string) :
  forall x,
    let best := fold_left (fun best y => if PyStr.gt y best then y else best)
                          rest x in
    (best = x \/ In best rest) /\
    PyStr.le x best /\
    (forall y, In y rest -> PyStr.le y best).
Proof.
  induction rest as [|y rest IH]; intros x; simpl.
  - split; [now left|]. split; [apply PyStrFacts.le_refl | tauto].
  - specialize (IH (if PyStr.gt y x then y else x)). simpl in IH.
    destruct IH as (Hin & Hle & Hall).
    destruct (PyStr.gt y x) eqn:Hgt.
    + pose proof (PyStrFacts.gt_true_le _ _ Hgt) as Hxy.
      split; [destruct Hin; auto|]. split.
      * eapply PyStrFacts.le_trans; eauto.
      * intros z [Hz | Hz]; subst; auto.
    + pose proof (PyStrFacts.gt_false_le _ _ Hgt) as Hyx.
      split; [destruct Hin; auto|]. split; [assumption|].
      intros z [Hz | Hz]; subst; auto.
      eapply PyStrFacts.le_trans; eauto.
Qed.

Lemma max_spec (l : list string) (best : string) :
  max l = Return best ->
  In best l /\ forall y, In y l -> PyStr.le y best.
Proof.
  destruct l as [|x rest]; simpl; [discriminate|].
  intros H. injection H as <-.
  destruct (fold_best_spec rest x) as (Hin & Hle & Hall).
  split; [destruct Hin; auto|].
  intros y [Hy | Hy]; subst; auto.
Qed.

Lemma max_nonempty (l : list string) :
  l <> [] -> exists best, max l = Return best.
Proof. destruct l; [congruence|]. simpl. eauto. Qed.

(** *** The guard and the two tools, case by case *)

Lemma _symbol_is_valid_run (symbol : string) (g : globals) :
  _symbol_is_valid symbol g = (Return (valid g symbol), g).
Proof. reflexivity. Qed.

Lemma get_all_metrics_invalid (symbol : string) (g : globals) :
  valid g symbol = false -> get_all_metrics symbol g = (Return "{}", g).
Proof.
  intros H. unfold get_all_metrics, bind.
  rewrite _symbol_is_valid_run, H. reflexivity.
Qed.

Lemma get_latest_metrics_invalid (symbol : string) (g : globals) :
  valid g symbol = false -> get_latest_metrics symbol g = (Return "{}", g).
Proof.
  intros H. unfold get_latest_metrics, bind.
  rewrite _symbol_is_valid_run, H. reflexivity.
Qed.

Lemma valid_stored (symbol : string) (g : globals) :
  valid g symbol = true -> exists per_date, lookup symbol (METRICS g) = Some per_date.
Proof.
  unfold valid, dict_contains. intros H.
  apply andb_true_iff in H as [_ H].
  destruct (lookup symbol (METRICS g)); [eauto | discriminate].
Qed.

Lemma get_all_metrics_valid (symbol : string) (g : globals) (per_date : dict json) :
  valid g symbol = true ->
  lookup symbol (METRICS g) = Some per_date ->
  get_all_metrics symbol g = (Return (dumps (JObject per_date)), g).
Proof.
  intros H Hl. unfold get_all_metrics, bind.
  rewrite _symbol_is_valid_run, H. simpl.
  unfold lift, getitem. rewrite Hl. reflexivity.
Qed.

Lemma get_latest_metrics_valid (symbol : string) (g : globals) (per_date : dict json) :
  valid g symbol = true ->
  lookup symbol (METRICS g) = Some per_date ->
  get_latest_metrics symbol g =
  match max (keys per_date) with
  | Return latest_date =>
      match lookup latest_date per_date with
      | Some latest_data =>
          (Return (dumps (JObject [(latest_date, latest_data)])), g)
      | None => (Raise KeyError, g)
      end
  | Raise e => (Raise e, g)
  end.
Proof.
  intros H Hl. unfold get_latest_metrics, bind.
  rewrite _symbol_is_valid_run, H. simpl.
  unfold lift, getitem. rewrite Hl.
  destruct (max (keys per_date)) as [latest_date|e]; [|reflexivity].
  destruct (lookup latest_date per_date); reflexivity.
Qed.

Lemma dumps_object_nonempty (item : string * json) (items : list (string * json)) :
  dumps (JObject (item :: items)) <> "{}".
Proof.
  destruct item as [k v]. destruct items; simpl; discriminate.
Qed.

(** *** The contract of the lookup *)

(** C5.  For a symbol in the whitelist and in the table whose per-date
    mapping is not empty, the latest-scope lookup returns the JSON text of
    an object with exactly one key, the largest date key of the mapping in
    the string order, mapped to the metrics stored under that date; and the
    all-scope lookup returns the JSON text of the whole per-date mapping,
    its items unchanged and in their order.  The globals are left as they
    were. *)
Theorem lookup_of_valid_symbol (g : globals) (symbol : string)
  (per_date : dict json) :
  list_contains symbol (SYMBOLS g) = true ->
  lookup symbol (METRICS g) = Some per_date ->
  per_date <> [] ->
  exists latest_date latest_data,
    In latest_date (keys per_date) /\
    (forall d, In d (keys per_date) -> PyStr.le d latest_date) /\
    lookup latest_date per_date = Some latest_data /\
    metrics_lookup symbol Latest g =
      (Return (dumps (JObject [(latest_date, latest_data)])), g) /\
    metrics_lookup symbol All g = (Return (dumps (JObject per_date)), g).
Proof.
  intros Hw Hl Hne.
  assert (Hv : valid g symbol = true).
  { unfold valid, dict_contains. now rewrite Hw, Hl. }
  assert (Hk : keys per_date <> []).
  { destruct per_date; [congruence | discriminate]. }
  destruct (max_nonempty _ Hk) as [latest_date Hmax].
  destruct (max_spec _ _ Hmax) as [Hin Hub].
  destruct (lookup_key _ _ Hin) as [latest_data Hdata].
  exists latest_date, latest_data. repeat split; auto.
  - simpl. rewrite (get_latest_metrics_valid _ _ _ Hv Hl), Hmax, Hdata.
    reflexivity.
  - simpl. now apply get_all_metrics_valid.
Qed.

Lemma lookup_of_valid_symbol_witness :
  exists latest_date latest_data,
    In latest_date (keys [("2024-12-31", JNull); ("2025-03-31", JBool true)]) /\
    (forall d, In d (keys [("2024-12-31", JNull); ("2025-03-31", JBool true)]) ->
               PyStr.le d latest_date) /\
    lookup latest_date [("2024-12-31", JNull); ("2025-03-31", JBool true)]
      = Some latest_data /\
    metrics_lookup "AAPL.US" Latest
      (load [("AAPL.US", [("2024-12-31", JNull); ("2025-03-31", JBool true)])]) =
      (Return (dumps (JObject [(latest_date, latest_data)])),
       load [("AAPL.US", [("2024-12-31", JNull); ("2025-03-31", JBool true)])]) /\
    metrics_lookup "AAPL.US" All
      (load [("AAPL.US", [("2024-12-31", JNull); ("2025-03-31", JBool true)])]) =
      (Return (dumps (JObject [("2024-12-31", JNull); ("2025-03-31", JBool true)])),
       load [("AAPL.US", [("2024-12-31", JNull); ("2025-03-31", JBool true)])]).
Proof.
  apply (lookup_of_valid_symbol
           (load [("AAPL.US", [("2024-12-31", JNull); ("2025-03-31", JBool true)])])
           "AAPL.US" [("2024-12-31", JNull); ("2025-03-31", JBool true)]).
  - reflexivity.
  - reflexivity.
  - discriminate.
Defined.

(** C6.  For a symbol that is not a key of the metrics table, the lookup
    returns the text of the empty object for both scopes, and does not
    raise. *)
Theorem lookup_of_unknown_symbol (g : globals) (symbol : string) (sc : scope) :
  dict_contains symbol (METRICS g) = false ->
  metrics_lookup symbol sc g = (Return "{}", g).
Proof.
  intros H.
  assert (Hv : valid g symbol = false).
  { unfold valid. rewrite H. apply andb_false_r. }
  destruct sc; simpl.
  - now apply get_latest_metrics_invalid.
  - now apply get_all_metrics_invalid.
Qed.

Lemma lookup_of_unknown_symbol_witness :
  metrics_lookup "GOOG.US" Latest (load sample_metrics)
    = (Return "{}", load sample_metrics) /\
  metrics_lookup "GOOG.US" All (load sample_metrics)
    = (Return "{}", load sample_metrics).
Proof.
  split.
  - apply (lookup_of_unknown_symbol (load sample_metrics) "GOOG.US" Latest).
    reflexivity.
  - apply (lookup_of_unknown_symbol (load sample_metrics) "GOOG.US" All).
    reflexivity.
Defined.

(** C8.  Two calls of [get_all_metrics] on the same symbol, one after the
    other with nothing in between, return the same string, and the globals
    after the two calls are the globals before them. *)
Theorem get_all_metrics_twice (g : globals) (symbol : string) :
  exists text,
    call_twice (get_all_metrics symbol) g = (Return (text, text), g).
Proof.
  unfold call_twice, bind.
  destruct (valid g symbol) eqn:Hv.
  - destruct (valid_stored _ _ Hv) as [per_date Hl].
    exists (dumps (JObject per_date)).
    now rewrite !(get_all_metrics_valid _ _ _ Hv Hl).
  - exists "{}". now rewrite !(get_all_metrics_invalid _ _ Hv).
Qed.

(** C9.  Whatever the symbol, neither tool raises [KeyError]: the table is
    indexed only behind the guard, which has checked that the symbol is one
    of its keys, and the date looked up is one of the keys [max] ran over.
    If moreover the per-date mapping of a valid symbol is not empty, [max]
    is defined and both tools return a string. *)
Theorem tools_never_raise_key_error (g : globals) (symbol : string) :
  fst (get_latest_metrics symbol g) <> Raise KeyError /\
  fst (get_all_metrics symbol g) <> Raise KeyError /\
  ((forall per_date,
       valid g symbol = true ->
       lookup symbol (METRICS g) = Some per_date -> per_date <> []) ->
   exists latest all,
     get_latest_metrics symbol g = (Return latest, g) /\
     get_all_metrics symbol g = (Return all, g)).
Proof.
  destruct (valid g symbol) eqn:Hv.
  - destruct (valid_stored _ _ Hv) as [per_date Hl].
    rewrite (get_latest_metrics_valid _ _ _ Hv Hl),
            (get_all_metrics_valid _ _ _ Hv Hl).
    split; [|split].
    + destruct (max (keys per_date)) as [latest_date|e] eqn:Hmax.
      * destruct (max_spec _ _ Hmax) as [Hin _].
        destruct (lookup_key _ _ Hin) as [latest_data ->]. discriminate.
      * destruct per_date; simpl in Hmax; [|discriminate].
        injection Hmax as <-. discriminate.
    + discriminate.
    + intros Hne. specialize (Hne per_date eq_refl Hl).
      assert (Hk : keys per_date <> []).
      { destruct per_date; [congruence | discriminate]. }
      destruct (max_nonempty _ Hk) as [latest_date Hmax].
      destruct (max_spec _ _ Hmax) as [Hin _].
      destruct (lookup_key _ _ Hin) as [latest_data Hdata].
      rewrite Hmax, Hdata. eauto.
  - rewrite (get_latest_metrics_invalid _ _ Hv),
            (get_all_metrics_invalid _ _ Hv).
    split; [discriminate|]. split; [discriminate|]. eauto.
Qed.

Lemma tools_never_raise_key_error_witness :
  exists latest all,
    get_latest_metrics "TSLA.US" (load sample_metrics)
      = (Return latest, load sample_metrics) /\
    get_all_metrics "TSLA.US" (load sample_metrics)
      = (Return all, load sample_metrics).
Proof.
  apply (tools_never_raise_key_error (load sample_metrics) "TSLA.US").
  intros per_date _ Hl. vm_compute in Hl. injection Hl as <-. discriminate.
Defined.

(** C10, as stated, fails: AMZN.US is in the whitelist and is a key of
    [sample_metrics], where its per-date mapping is empty; [get_all_metrics]
    returns the text of the empty object for it, so a result other than
    that text is not returned for every symbol in both. *)
Lemma nonempty_result_not_exactly_when_valid :
  ~ (forall (metrics : dict (dict json)) (symbol : string),
        fst (get_all_metrics symbol (load metrics)) <> Return "{}" <->
        list_contains symbol (SYMBOLS (load metrics)) = true /\
        dict_contains symbol metrics = true).
Proof.
  intros H.
  destruct (H sample_metrics "AMZN.US") as [_ H2].
  apply H2; [split|]; reflexivity.
Qed.

(** C10, amended.  With the whitelist of the notebook: a symbol missing
    from the whitelist or from the table gets the text of the empty object
    from both tools, also when the table stores data for it; a tool returns
    another text only for a symbol in both; and for a symbol in both whose
    per-date mapping is not empty, both tools return a text other than that
    of the empty object. *)
Theorem guard_is_whitelist_and_table (metrics : dict (dict json))
  (symbol : string) (sc : scope) :
  let g := load metrics in
  let listed := list_contains symbol ["TSLA.US"; "AMZN.US"; "AAPL.US"] in
  (listed = false \/ dict_contains symbol metrics = false ->
   metrics_lookup symbol sc g = (Return "{}", g)) /\
  (forall text,
      fst (metrics_lookup symbol sc g) = Return text -> text <> "{}" ->
      listed = true /\ dict_contains symbol metrics = true) /\
  (forall per_date,
      listed = true -> lookup symbol metrics = Some per_date ->
      per_date <> [] ->
      exists text, metrics_lookup symbol sc g = (Return text, g) /\ text <> "{}").
Proof.
  intros g listed.
  assert (Hinv : valid g symbol = false -> metrics_lookup symbol sc g = (Return "{}", g)).
  { intros Hv. destruct sc; simpl;
      [now apply get_latest_metrics_invalid | now apply get_all_metrics_invalid]. }
  split; [|split].
  - intros H. apply Hinv. unfold valid.
    change (SYMBOLS g) with ["TSLA.US"; "AMZN.US"; "AAPL.US"].
    change (METRICS g) with metrics. fold listed.
    destruct H as [H | H]; rewrite H; [reflexivity | apply andb_false_r].
  - intros text Hret Hne.
    destruct (valid g symbol) eqn:Hv.
    + unfold valid in Hv. now apply andb_true_iff in Hv.
    + rewrite (Hinv eq_refl) in Hret. simpl in Hret. congruence.
  - intros per_date Hw Hl Hne.
    assert (Hv : valid g symbol = true).
    { unfold valid, dict_contains.
      change (SYMBOLS g) with ["TSLA.US"; "AMZN.US"; "AAPL.US"].
      change (METRICS g) with metrics. fold listed. now rewrite Hw, Hl. }
    destruct per_date as [|item items]; [congruence|].
    destruct sc; simpl.
    + rewrite (get_latest_metrics_valid _ _ _ Hv Hl).
      destruct (max (keys (item :: items))) as [latest_date|e] eqn:Hmax;
        [|destruct item; discriminate].
      destruct (max_spec _ _ Hmax) as [Hin _].
      destruct (lookup_key _ _ Hin) as [latest_data ->].
      eexists. split; [reflexivity | apply dumps_object_nonempty].
    + rewrite (get_all_metrics_valid _ _ _ Hv Hl).
      eexists. split; [reflexivity | apply dumps_object_nonempty].
Qed.

Lemma guard_is_whitelist_and_table_witness :
  metrics_lookup "MSFT.US" All (load sample_metrics)
    = (Return "{}", load sample_metrics) /\
  (exists text,
      metrics_lookup "TSLA.US" Latest (load sample_metrics)
        = (Return text, load sample_metrics) /\ text <> "{}").
Proof.
  split.
  - apply (guard_is_whitelist_and_table sample_metrics "MSFT.US" All).
    left. reflexivity.
  - destruct (guard_is_whitelist_and_table sample_metrics "TSLA.US" Latest)
      as (_ & _ & H).
    eapply H; [reflexivity | reflexivity | discriminate].
Defined.

End ToolsFacts.

(** ** The round-robin team *)

Module ChatFacts.

Import Chat.
Local Open Scope list_scope.
Local Open Scope nat_scope.

(** *** One turn *)

Lemma length_snoc {A} (l : list A) (x : A) : length (l ++ [x]) = S (length l).
Proof. rewrite length_app. simpl. lia. Qed.

Lemma first_fire_bound (msgs : list Message) :
  forall c k reason,
    first_fire c msgs = Some (k, reason) -> 1 <= k <= length msgs.
Proof.
  induction msgs as [|m rest IH]; intros c k reason; simpl; [discriminate|].
  destruct (evaluate c m) as [c' [r|]].
  - intros H. injection H as <- <-. lia.
  - destruct (first_fire c' rest) as [[k' r']|] eqn:E; [|discriminate].
    intros H. injection H as <- <-. apply IH in E. lia.
Qed.

Lemma first_fire_app (front : list Message) :
  forall c back,
    first_fire c (front ++ back) =
    match first_fire c front with
    | Some hit => Some hit
    | None =>
        match first_fire (observe c front) back with
        | Some (k, reason) => Some (length front + k, reason)
        | None => None
        end
    end.
Proof.
  induction front as [|m rest IH]; intros c back; simpl.
  - destruct (first_fire c back) as [[k r]|]; reflexivity.
  - unfold observe. simpl. destruct (evaluate c m) as [c' [r|]]; simpl; [reflexivity|].
    rewrite IH. destruct (first_fire c' rest) as [[k r]|]; [reflexivity|].
    fold (observe c' rest).
    destruct (first_fire (observe c' rest) back) as [[k r]|]; reflexivity.
Qed.

Lemma deliver_quiet (who : string) (produced : list string) :
  forall tr c,
    first_fire c (stamp who produced (length tr)) = None ->
    deliver who produced tr c =
    (tr ++ stamp who produced (length tr),
     observe c (stamp who produced (length tr)), None).
Proof.
  induction produced as [|x pending IH]; intros tr c; simpl.
  - intros _. now rewrite app_nil_r.
  - unfold observe. simpl.
    set (m := {| source := who; content := x; index := length tr |}).
    destruct (evaluate c m) as [c' [r|]]; [discriminate|]. simpl.
    destruct (first_fire c' _) as [[k r]|] eqn:E; [discriminate|]. intros _.
    rewrite <- (length_snoc tr m) in E |- *.
    rewrite (IH _ _ E). now rewrite <- app_assoc.
Qed.

Lemma deliver_fired (who : string) (produced : list string) :
  forall tr c k reason,
    first_fire c (stamp who produced (length tr)) = Some (k, reason) ->
    exists c',
      deliver who produced tr c =
      (tr ++ firstn k (stamp who produced (length tr)), c', Some reason).
Proof.
  induction produced as [|x pending IH]; intros tr c k reason; simpl;
    [discriminate|].
  set (m := {| source := who; content := x; index := length tr |}).
  destruct (evaluate c m) as [c' [r|]].
  - intros H. injection H as <- <-. simpl. eauto.
  - destruct (first_fire c' _) as [[k' r']|] eqn:E; [|discriminate].
    intros H. injection H as <- <-.
    rewrite <- (length_snoc tr m) in E |- *.
    destruct (IH _ _ _ _ E) as [c'' ->]. exists c''.
    simpl. now rewrite <- app_assoc.
Qed.

(** *** A run against what the participants produce *)

(** The transcript and the status of [schedule] are those of cutting the
    production at the first message where the condition is true. *)
Lemma schedule_production (ps : list Participant) (max_turns : nat) :
  forall turn tr c,
    let r := schedule max_turns ps turn tr c in
    let F := fst (production max_turns ps turn tr) in
    match first_fire c F with
    | Some (k, reason) =>
        transcript r = tr ++ firstn k F /\ stopped_by r = StoppedBy reason
    | None =>
        transcript r = tr ++ F /\
        stopped_by r = snd (production max_turns ps turn tr)
    end.
Proof.
  induction max_turns as [|remaining IH]; intros turn tr c; simpl.
  - now rewrite app_nil_r.
  - destruct (nth_error ps (turn mod length ps)) as [p|]; simpl;
      [|now rewrite app_nil_r].
    destruct (invoke p tr) as [produced|]; simpl; [|now rewrite app_nil_r].
    set (ms := stamp (name p) produced (length tr)).
    specialize (IH (S turn) (tr ++ ms) (observe c ms)). simpl in IH.
    destruct (production remaining ps (S turn) (tr ++ ms)) as [later st].
    simpl in *. rewrite first_fire_app.
    destruct (first_fire c ms) as [[k reason]|] eqn:E.
    + destruct (deliver_fired _ _ _ _ _ _ E) as [c' ->]. simpl.
      apply first_fire_bound in E. fold ms.
      split; [|reflexivity]. f_equal.
      rewrite firstn_app.
      replace (k - length ms) with 0 by lia. simpl. now rewrite app_nil_r.
    + rewrite (deliver_quiet _ _ _ _ E). fold ms.
      destruct (first_fire (observe c ms) later) as [[k reason]|] eqn:E'.
      * destruct IH as [-> ->]. split; [|reflexivity].
        rewrite <- app_assoc. f_equal.
        rewrite firstn_app.
        rewrite (@firstn_all2 _ (length ms + k) ms) by lia.
        f_equal. f_equal. lia.
      * destruct IH as [-> ->]. now rewrite <- app_assoc.
Qed.

(** *** When each condition is first true *)

Lemma first_fire_count (msgs : list Message) :
  forall threshold count,
    count < threshold ->
    first_fire (CountCondition threshold count) msgs =
    if threshold - count <=? length msgs
    then Some (threshold - count, CountBound) else None.
Proof.
  induction msgs as [|m rest IH]; intros threshold count Hlt; simpl.
  - destruct (threshold - count <=? 0) eqn:E; [|reflexivity].
    apply Nat.leb_le in E. lia.
  - destruct (threshold <=? S count) eqn:E.
    + apply Nat.leb_le in E. replace (threshold - count) with 1 by lia.
      reflexivity.
    + apply Nat.leb_gt in E. rewrite (IH threshold (S count)) by lia.
      replace (threshold - count) with (S (threshold - S count)) by lia.
      simpl. destruct (threshold - S count <=? length rest); reflexivity.
Qed.

Lemma first_fire_mention (marker : string) (msgs : list Message) :
  first_fire (MentionCondition marker false) msgs =
  option_map (fun i => (i, ContentMatch)) (first_mention marker msgs).
Proof.
  induction msgs as [|m rest IH]; simpl; [reflexivity|].
  destruct (PyStr.contains marker (content m)); [reflexivity|].
  rewrite IH. destruct (first_mention marker rest); reflexivity.
Qed.

Lemma first_fire_or (msgs : list Message) :
  forall a b,
    first_fire (OrCondition a b) msgs =
    sooner (first_fire a msgs) (first_fire b msgs).
Proof.
  induction msgs as [|m rest IH]; intros a b; simpl; [reflexivity|].
  destruct (evaluate a m) as [a' [ra|]], (evaluate b m) as [b' [rb|]]; simpl.
  - reflexivity.
  - destruct (first_fire b' rest) as [[j rj]|]; reflexivity.
  - destruct (first_fire a' rest) as [[i ri]|] eqn:E; [|reflexivity].
    apply first_fire_bound in E. simpl. destruct i; [lia | reflexivity].
  - rewrite IH.
    destruct (first_fire a' rest) as [[i ri]|], (first_fire b' rest) as [[j rj]|];
      simpl; try reflexivity.
    destruct (i <=? j); reflexivity.
Qed.

Lemma first_mention_bound (marker : string) (msgs : list Message) :
  forall i, first_mention marker msgs = Some i -> 1 <= i <= length msgs.
Proof.
  induction msgs as [|m rest IH]; intros i; simpl; [discriminate|].
  destruct (PyStr.contains marker (content m)).
  - intros H. injection H as <-. lia.
  - destruct (first_mention marker rest) as [j|]; [|discriminate].
    intros H. injection H as <-. specialize (IH j eq_refl). lia.
Qed.

(** The notebook's [termination] is first true at the earlier of the
    twelfth message and the first message that mentions APPROVE. *)
Lemma first_fire_termination (msgs : list Message) :
  let mention := first_mention "APPROVE" msgs in
  first_fire termination msgs =
  if earliest 12 mention <=? length msgs
  then Some (earliest 12 mention, reason_of mention) else None.
Proof.
  intros mention. unfold termination, TextMentionTermination, MaxMessageTermination.
  rewrite first_fire_or, first_fire_mention, first_fire_count by lia.
  fold mention. change (12 - 0) with 12.
  unfold earliest, reason_of.
  destruct mention as [i|] eqn:E; cbn [option_map sooner].
  - apply first_mention_bound in E.
    destruct (12 <=? length msgs) eqn:E12.
    + apply Nat.leb_le in E12. destruct (i <=? 12) eqn:Ei.
      * apply Nat.leb_le in Ei. rewrite Nat.min_r by lia.
        replace (i <=? length msgs) with true by (symmetry; apply Nat.leb_le; lia).
        reflexivity.
      * apply Nat.leb_gt in Ei. rewrite Nat.min_l by lia.
        rewrite (proj2 (Nat.leb_le 12 (length msgs)) E12).
        reflexivity.
    + apply Nat.leb_gt in E12. rewrite Nat.min_r by lia.
      replace (i <=? length msgs) with true by (symmetry; apply Nat.leb_le; lia).
      replace (i <=? 12) with true by (symmetry; apply Nat.leb_le; lia).
      reflexivity.
  - destruct (12 <=? length msgs); reflexivity.
Qed.

Lemma run_schedule (max_turns : nat) (team : RoundRobinGroupChat) (task : string) :
  participants team <> [] ->
  well_configured (termination_condition team) = true ->
  run max_turns team task =
  schedule max_turns (participants team) 0 [seed task]
           (reset (termination_condition team)).
Proof.
  unfold run. intros Hps ->. destruct (participants team); congruence.
Qed.







(** *** Stopping on the marker *)

Lemma first_mention_app (marker : string) (front back : list Message) :
  first_mention marker (front ++ back) =
  match first_mention marker front with
  | Some i => Some i
  | None => option_map (fun j => length front + j) (first_mention marker back)
  end.
Proof.
  induction front as [|m rest IH]; simpl.
  - destruct (first_mention marker back); reflexivity.
  - destruct (PyStr.contains marker (content m)); [reflexivity|].
    rewrite IH. destruct (first_mention marker rest); [reflexivity|].
    destruct (first_mention marker back); reflexivity.
Qed.

Lemma first_mention_none (marker : string) (msgs : list Message) :
  first_mention marker msgs = None ->
  forall m, In m msgs -> PyStr.contains marker (content m) = false.
Proof.
  induction msgs as [|x rest IH]; simpl; [tauto|].
  destruct (PyStr.contains marker (content x)) eqn:E; [discriminate|].
  destruct (first_mention marker rest); [discriminate|].
  intros _ m [<- | Hin]; auto.
Qed.

Lemma first_mention_at (marker : string) (before after : list Message)
  (m : Message) :
  PyStr.contains marker (content m) = true ->
  exists i,
    first_mention marker (before ++ m :: after) = Some i /\
    i <= S (length before) /\
    (i = S (length before) ->
     forall x, In x before -> PyStr.contains marker (content x) = false).
Proof.
  intros Hm. rewrite first_mention_app.
  destruct (first_mention marker before) as [i|] eqn:E.
  - exists i. apply first_mention_bound in E. repeat split; auto; lia.
  - exists (S (length before)). simpl. rewrite Hm. simpl.
    repeat split; [f_equal; lia | lia |].
    intros _. now apply first_mention_none.
Qed.

(** Both the plain content match on APPROVE and the notebook's
    [termination] are true no later than the first mention, and give the
    content match as the reason when they stop there. *)
Lemma approve_fires (c : TerminationCondition) (msgs : list Message) :
  c = TextMentionTermination "APPROVE" \/ c = termination ->
  match first_fire (reset c) msgs with
  | Some (k, reason) =>
      forall i, first_mention "APPROVE" msgs = Some i ->
                k <= i /\ (k = i -> reason = ContentMatch)
  | None => first_mention "APPROVE" msgs = None
  end.
Proof.
  intros [-> | ->].
  - cbn [reset TextMentionTermination]. rewrite first_fire_mention.
    destruct (first_mention "APPROVE" msgs) as [j|]; simpl; [|reflexivity].
    intros i H. injection H as <-. auto.
  - change (reset termination) with termination.
    rewrite first_fire_termination. cbv zeta.
    destruct (first_mention "APPROVE" msgs) as [j|] eqn:E.
    + pose proof (first_mention_bound _ _ _ E) as Hj.
      unfold earliest, reason_of.
      destruct (Nat.min 12 j <=? length msgs) eqn:Emin.
      * intros i H. injection H as <-. split; [lia|].
        intros Heq. replace (j <=? 12) with true; [reflexivity|].
        symmetry. apply Nat.leb_le. lia.
      * apply Nat.leb_gt in Emin. lia.
    + unfold earliest. destruct (12 <=? length msgs); [|reflexivity].
      intros i H. discriminate.
Qed.

Lemma deliver_grows (who : string) (produced : list string) :
  forall tr c tr' c' outcome,
    deliver who produced tr c = (tr', c', outcome) ->
    length tr <= length tr' /\ (outcome <> None -> length tr < length tr').
Proof.
  induction produced as [|x pending IH]; intros tr c tr' c' outcome; simpl.
  - intros H. injection H as <- <- <-. split; [lia | congruence].
  - set (m := {| source := who; content := x; index := length tr |}).
    destruct (evaluate c m) as [c1 [reason|]].
    + intros H. injection H as <- <- <-. rewrite length_snoc. split; lia.
    + intros H. apply IH in H. rewrite length_snoc in H.
      destruct H as [H1 H2]. split; [lia|]. intros Ho. specialize (H2 Ho). lia.
Qed.

(** When a condition stops the run, every invocation was given a transcript
    shorter than the final one: the last message was appended after the
    last invocation was issued. *)
Lemma schedule_seen_before_stop (ps : list Participant) (max_turns : nat) :
  forall turn tr c reason,
    let r := schedule max_turns ps turn tr c in
    stopped_by r = StoppedBy reason ->
    length tr < length (transcript r) /\
    forall who seen, In (who, seen) (invocations r) ->
                     seen < length (transcript r).
Proof.
  induction max_turns as [|remaining IH]; intros turn tr c reason; simpl;
    [discriminate|].
  destruct (nth_error ps (turn mod length ps)) as [p|]; [|discriminate].
  destruct (invoke p tr) as [produced|]; [|discriminate].
  destruct (deliver (name p) produced tr c) as [[tr' c'] [fired|]] eqn:Ed;
    apply deliver_grows in Ed; destruct Ed as [Hle Hlt]; simpl.
  - intros _. assert (length tr < length tr') by (apply Hlt; discriminate).
    split; [assumption|]. intros who seen [H' | []]. injection H' as <- <-.
    assumption.
  - intros Hst. destruct (IH (S turn) tr' c' reason Hst) as [Hgrow Hseen].
    split; [lia|]. intros who seen [H' | Hin].
    + injection H' as <- <-. lia.
    + eauto.
Qed.

(** C1.  In a run under a content match on APPROVE, alone or in the
    notebook's [termination], a reply that contains APPROVE is the last
    message of the transcript and the first reply to contain it; the run is
    stopped by the content match; and every participant invocation of the
    run was issued before that message was appended, so no participant
    took a turn after it. *)
Theorem stop_right_after_first_approve (max_turns : nat)
  (ps : list Participant) (c : TerminationCondition) (task : string)
  (before after : list Message) (m : Message) :
  c = TextMentionTermination "APPROVE" \/ c = termination ->
  let r := run max_turns (mkTeam ps c) task in
  transcript r = seed task :: before ++ m :: after ->
  PyStr.contains "APPROVE" (content m) = true ->
  after = [] /\
  (forall earlier, In earlier before ->
                   PyStr.contains "APPROVE" (content earlier) = false) /\
  stopped_by r = StoppedBy ContentMatch /\
  (forall who seen, In (who, seen) (invocations r) ->
                    seen <= length (seed task :: before)).
Proof.
  intros Hc r Htr Hm.
  assert (Hne : ps <> []).
  { intros ->. subst r. unfold run in Htr. simpl in Htr. discriminate. }
  assert (Hwf : well_configured c = true) by (destruct Hc; subst c; reflexivity).
  assert (Hr : r = schedule max_turns ps 0 [seed task] (reset c)).
  { subst r. now apply run_schedule. }
  set (F := fst (production max_turns ps 0 [seed task])).
  pose proof (schedule_production ps max_turns 0 [seed task] (reset c)) as H.
  cbv zeta in H. fold F in H. rewrite <- Hr in H.
  pose proof (approve_fires c F Hc) as Hfire.
  destruct (first_mention_at "APPROVE" before after m Hm) as (i & Hi & Hib & Hfirst).
  destruct (first_fire (reset c) F) as [[k reason]|] eqn:E.
  - destruct H as [Hcut Hst].
    rewrite Htr in Hcut. simpl in Hcut. injection Hcut as Hcut.
    apply first_fire_bound in E.
    assert (Hlen : length (before ++ m :: after) = k).
    { rewrite Hcut. apply firstn_length_le. lia. }
    rewrite length_app in Hlen. simpl in Hlen.
    assert (HF : first_mention "APPROVE" F = Some i).
    { rewrite <- (firstn_skipn k F), <- Hcut, first_mention_app, Hi.
      reflexivity. }
    destruct (Hfire i HF) as [Hki Hreason].
    assert (length after = 0) by lia.
    assert (Hafter : after = []) by (destruct after; [reflexivity | discriminate]).
    assert (k = i) by lia.
    split; [exact Hafter|]. split; [apply Hfirst; lia|].
    split; [rewrite Hst; f_equal; auto|].
    intros who seen Hin.
    assert (Hs : stopped_by (schedule max_turns ps 0 [seed task] (reset c))
                 = StoppedBy reason) by now rewrite <- Hr.
    destruct (schedule_seen_before_stop ps max_turns 0 [seed task] (reset c)
                reason Hs) as [_ Hseen].
    rewrite <- Hr in Hseen. apply Hseen in Hin.
    rewrite Htr, Hafter in Hin. simpl in Hin |- *.
    rewrite length_snoc in Hin. lia.
  - destruct H as [Hall _].
    rewrite Htr in Hall. simpl in Hall. injection Hall as Hall.
    rewrite <- Hall, Hi in Hfire. discriminate.
Qed.

Lemma stop_right_after_first_approve_witness :
  stopped_by
    (run 20 (executor_chat (parrot "ExecutorWorker" ["data APPROVE"; "more"])
                           (parrot "Critic" ["fine"])) "plan")
  = StoppedBy ContentMatch.
Proof.
  refine (proj1 (proj2 (proj2
    (stop_right_after_first_approve 20
       [parrot "ExecutorWorker" ["data APPROVE"; "more"]; parrot "Critic" ["fine"]]
       termination "plan" []
       []
       {| source := "ExecutorWorker"; content := "data APPROVE"; index := 1 |}
       _ _ _)))).
  - right. reflexivity.
  - reflexivity.
  - reflexivity.
Defined.

(** *** Round-robin order *)

(** When every participant produces exactly one message per turn, the
    message at position [i] of the production of a run that starts at turn
    [turn] comes from the participant of turn [turn + i]. *)
Lemma production_sources (ps : list Participant) (max_turns : nat) :
  Forall speaks_once ps ->
  forall turn tr i m,
    nth_error (fst (production max_turns ps turn tr)) i = Some m ->
    exists p,
      nth_error ps ((turn + i) mod length ps) = Some p /\ source m = name p.
Proof.
  intros Hall.
  induction max_turns as [|remaining IH]; intros turn tr i m; simpl.
  - now rewrite nth_error_nil.
  - destruct (nth_error ps (turn mod length ps)) as [p|] eqn:Ep;
      [|simpl; now rewrite nth_error_nil].
    pose proof (nth_error_In _ _ Ep) as Hin.
    rewrite Forall_forall in Hall. destruct (Hall p Hin tr) as [x ->].
    specialize (IH (S turn) (tr ++ stamp (name p) [x] (length tr))).
    destruct (production remaining ps (S turn) _) as [later st].
    simpl in *. destruct i as [|j]; simpl.
    + intros H. injection H as <-. exists p.
      rewrite Nat.add_0_r. auto.
    + intros H. apply IH in H. now rewrite Nat.add_succ_r.
Qed.

(** The replies of a run are a prefix of the production. *)
Lemma replies_in_production (max_turns : nat) (team : RoundRobinGroupChat)
  (task : string) (i : nat) (m : Message) :
  nth_error (replies (run max_turns team task)) i = Some m ->
  nth_error (fst (production max_turns (participants team) 0 [seed task])) i
  = Some m.
Proof.
  unfold run, replies.
  destruct (participants team) as [|p ps'] eqn:Eps;
    [simpl; now rewrite nth_error_nil|].
  destruct (well_configured (termination_condition team));
    [|simpl; now rewrite nth_error_nil].
  pose proof (schedule_production (p :: ps') max_turns 0 [seed task]
                (reset (termination_condition team))) as H.
  cbv zeta in H.
  destruct (first_fire _ _) as [[k reason]|]; destruct H as [-> _]; simpl;
    [|auto].
  rewrite nth_error_firstn. destruct (i <? k); [auto | discriminate].
Qed.

(** C4.  In a run of a team of two participants A and B that each produce
    exactly one message per turn, whatever the termination condition and
    the cap, the reply at position [i] after the seed (counted from 0) has
    the name of the participant at position [i mod 2] as its source: the
    sources read A, B, A, B, ... for as long as the run goes. *)
Theorem round_robin_order (max_turns : nat) (A B : Participant)
  (c : TerminationCondition) (task : string) (i : nat) (m : Message) :
  speaks_once A -> speaks_once B ->
  nth_error (replies (run max_turns (mkTeam [A; B] c) task)) i = Some m ->
  source m = name (nth (i mod 2) [A; B] A).
Proof.
  intros HA HB Hm.
  apply replies_in_production in Hm. cbn [participants] in Hm.
  assert (Hall : Forall speaks_once [A; B]) by (repeat constructor; assumption).
  destruct (production_sources [A; B] max_turns Hall 0 [seed task] i m Hm)
    as (p & Hp & ->).
  cbn [length Nat.add] in Hp.
  f_equal. symmetry. now apply nth_error_nth.
Qed.

Lemma round_robin_order_witness :
  map source
    (replies (run 20 (executor_chat (switcher "ExecutorWorker" 4 ["data"]
                                                                 ["data again"])
                                    (switcher "Critic" 5 ["missing: quick_ratio"]
                                                         ["APPROVE"])) "plan"))
  = ["ExecutorWorker"; "Critic"; "ExecutorWorker"; "Critic";
     "ExecutorWorker"; "Critic"] /\
  source {| source := "ExecutorWorker"; content := "data"; index := 3 |}
  = name (nth (2 mod 2)
              [switcher "ExecutorWorker" 4 ["data"] ["data again"];
               switcher "Critic" 5 ["missing: quick_ratio"] ["APPROVE"]]
              (switcher "ExecutorWorker" 4 ["data"] ["data again"])).
Proof.
  split; [reflexivity|].
  apply (round_robin_order 20
           (switcher "ExecutorWorker" 4 ["data"] ["data again"])
           (switcher "Critic" 5 ["missing: quick_ratio"] ["APPROVE"])
           termination "plan" 2).
  - intros tr. unfold switcher. simpl.
    destruct (length tr <? 4); eexists; reflexivity.
  - intros tr. unfold switcher. simpl.
    destruct (length tr <? 5); eexists; reflexivity.
  - reflexivity.
Defined.

(** *** The hard cap *)

Lemma schedule_invocations (ps : list Participant) (max_turns : nat) :
  forall turn tr c,
    let r := schedule max_turns ps turn tr c in
    length (invocations r) <= max_turns /\
    (stopped_by r = Exhausted -> length (invocations r) = max_turns).
Proof.
  induction max_turns as [|remaining IH]; intros turn tr c; simpl; [auto|].
  destruct (nth_error ps (turn mod length ps)) as [p|]; simpl;
    [|split; [lia | discriminate]].
  destruct (invoke p tr) as [produced|]; simpl; [|split; [lia | discriminate]].
  destruct (deliver (name p) produced tr c) as [[tr' c'] [fired|]]; simpl;
    [split; [lia | discriminate]|].
  destruct (IH (S turn) tr' c') as [Hle Hex]. split; [lia|].
  intros H. rewrite (Hex H). reflexivity.
Qed.

(** Participants that never fail take every turn the cap allows. *)
Lemma production_exhausted (ps : list Participant) (max_turns : nat) :
  ps <> [] ->
  (forall p tr, In p ps -> invoke p tr <> None) ->
  forall turn tr, snd (production max_turns ps turn tr) = Exhausted.
Proof.
  intros Hne Hok.
  induction max_turns as [|remaining IH]; intros turn tr; simpl; [reflexivity|].
  assert (Hlt : turn mod length ps < length ps).
  { apply Nat.mod_upper_bound. destruct ps; simpl; congruence. }
  destruct (nth_error ps (turn mod length ps)) as [p|] eqn:Ep;
    [|apply nth_error_None in Ep; lia].
  apply nth_error_In in Ep.
  destruct (invoke p tr) as [produced|] eqn:Ei; [|now destruct (Hok p tr Ep)].
  specialize (IH (S turn) (tr ++ stamp (name p) produced (length tr))).
  destruct (production remaining ps (S turn) _) as [later st]. exact IH.
Qed.

(** C7.  A run issues at most as many participant invocations as the hard
    cap allows, whatever its inputs.  For an accepted configuration whose
    participants never fail, the run ends with the status [Exhausted]
    exactly when the termination condition is true at none of the messages
    the participants produce within the cap; it has then taken every turn
    the cap allows and its transcript holds all of these messages. *)
Theorem run_exhausts_when_nothing_fires (max_turns : nat)
  (team : RoundRobinGroupChat) (task : string) :
  let r := run max_turns team task in
  let F := fst (production max_turns (participants team) 0 [seed task]) in
  length (invocations r) <= max_turns /\
  (participants team <> [] ->
   well_configured (termination_condition team) = true ->
   (forall p tr, In p (participants team) -> invoke p tr <> None) ->
   (stopped_by r = Exhausted <->
    first_fire (reset (termination_condition team)) F = None) /\
   (first_fire (reset (termination_condition team)) F = None ->
    replies r = F /\ length (invocations r) = max_turns)).
Proof.
  intros r F. split.
  - subst r. unfold run.
    destruct (participants team) as [|p ps']; [simpl; lia|].
    destruct (well_configured (termination_condition team)); [|simpl; lia].
    apply schedule_invocations.
  - intros Hne Hwf Hok.
    assert (Hr : r = schedule max_turns (participants team) 0 [seed task]
                       (reset (termination_condition team))).
    { subst r. now apply run_schedule. }
    pose proof (schedule_production (participants team) max_turns 0 [seed task]
                  (reset (termination_condition team))) as H.
    cbv zeta in H. fold F in H. rewrite <- Hr in H.
    rewrite (production_exhausted _ _ Hne Hok) in H.
    destruct (first_fire (reset (termination_condition team)) F)
      as [[k reason]|] eqn:E.
    + destruct H as [_ Hst]. split; [|discriminate].
      rewrite Hst. split; discriminate.
    + destruct H as [Htr Hst]. split; [tauto|]. intros _.
      split; [unfold replies; now rewrite Htr|].
      rewrite Hr in Hst |- *.
      now apply (schedule_invocations (participants team) max_turns 0
                   [seed task] (reset (termination_condition team))).
Qed.

Lemma run_exhausts_when_nothing_fires_witness :
  stopped_by (run 5 (executor_chat (parrot "ExecutorWorker" [])
                                   (parrot "Critic" ["missing data"])) "plan")
  = Exhausted /\
  map content
    (replies (run 5 (executor_chat (parrot "ExecutorWorker" [])
                                   (parrot "Critic" ["missing data"])) "plan"))
  = ["missing data"; "missing data"] /\
  length (invocations
            (run 5 (executor_chat (parrot "ExecutorWorker" [])
                                  (parrot "Critic" ["missing data"])) "plan"))
  = 5.
Proof.
  destruct (run_exhausts_when_nothing_fires 5
              (executor_chat (parrot "ExecutorWorker" [])
                             (parrot "Critic" ["missing data"])) "plan")
    as [_ H].
  destruct H as [Hiff Hall].
  - discriminate.
  - reflexivity.
  - intros p tr [<- | [<- | []]]; discriminate.
  - split; [apply Hiff; reflexivity|].
    destruct Hall as [Hreplies Hturns]; [reflexivity|].
    split; [now rewrite Hreplies | exact Hturns].
Defined.

(** *** The recorded run of the finance demo *)

(** In the output kept in the notebook the executor's turn yields a tool
    call request, the tool's result and a text that ends in APPROVE; the
    run stops there and the critic is never asked. *)
Example recorded_executor_run :
  let r := run 100
             (executor_chat
                (parrot "ExecutorWorker"
                   ["[FunctionCall(name='get_latest_metrics')]";
                    "[FunctionExecutionResult(name='get_latest_metrics')]";
                    "{ 'symbol': 'TSLA.US', 'data': { ... } } APPROVE"])
                (parrot "Critic" ["APPROVE"]))
             "{'refined':'...','symbol':'TSLA.US','scope':'latest'}" in
  map source (transcript r)
  = ["user"; "ExecutorWorker"; "ExecutorWorker"; "ExecutorWorker"] /\
  stopped_by r = StoppedBy ContentMatch /\
  map fst (invocations r) = ["ExecutorWorker"].
Proof. repeat split. Qed.

(** *** The scenarios of the specification *)

Example approve_on_first_turn :
  let r := run 100 (executor_chat (parrot "ExecutorWorker" ["{...} APPROVE"])
                                  (parrot "Critic" ["APPROVE"])) "plan" in
  stopped_by r = StoppedBy ContentMatch /\
  length (transcript r) = 2 /\
  invocations r = [("ExecutorWorker", 1)].
Proof. repeat split. Qed.

Example lone_participant_count_three :
  let r := run 100 (mkTeam [parrot "Greeter" ["hello"]]
                           (MaxMessageTermination 3)) "hi" in
  stopped_by r = StoppedBy CountBound /\
  length (replies r) = 3 /\
  length (invocations r) = 3.
Proof. repeat split. Qed.

Example silent_participant_is_skipped :
  let r := run 3 (mkTeam [parrot "Mute" []; parrot "Critic" ["go on"]]
                         (MaxMessageTermination 5)) "hi" in
  stopped_by r = Exhausted /\
  map source (replies r) = ["Critic"] /\
  map fst (invocations r) = ["Mute"; "Critic"; "Mute"].
Proof. repeat split. Qed.

Example failing_participant_aborts :
  let r := run 10 (mkTeam [parrot "A" ["x"]; fragile "B" 3 ["y"]]
                          (MaxMessageTermination 5)) "hi" in
  stopped_by r = ParticipantInvocationError "B" /\
  map content (transcript r) = ["hi"; "x"; "y"; "x"].
Proof. repeat split. Qed.

Example refused_configurations :
  stopped_by (run 10 (mkTeam [] termination) "hi") = ConfigurationError /\
  stopped_by (run 10 (mkTeam [parrot "A" ["x"]] (MaxMessageTermination 0)) "hi")
  = ConfigurationError.
Proof. split; reflexivity. Qed.

End ChatFacts.

(* ===================================================================== *)
(** * Further properties of the notebooks' code *)
(* ===================================================================== *)

(** ** Substrings, [join] and [upper] *)

Module PyTextFacts.

Import PyStr PyText.

Lemma prefix_nil (s : string) : String.prefix "" s = true.
Proof. destruct s; reflexivity. Qed.

Lemma contains_unfold (needle haystack : string) :
  contains needle haystack =
  String.prefix needle haystack ||
  match haystack with
  | EmptyString => false
  | String _ rest => contains needle rest
  end.
Proof. destruct haystack; reflexivity. Qed.

Lemma prefix_app (needle : string) :
  forall haystack after,
    String.prefix needle haystack = true ->
    String.prefix needle (haystack ++ after) = true.
Proof.
  induction needle as [|c needle IH]; intros haystack after.
  - intros _. apply prefix_nil.
  - destruct haystack as [|d haystack]; simpl; [discriminate|].
    destruct (ascii_dec c d); [apply IH | discriminate].
Qed.

Lemma prefix_self (needle after : string) :
  String.prefix needle (needle ++ after) = true.
Proof.
  induction needle as [|c needle IH]; simpl; [apply prefix_nil|].
  destruct (ascii_dec c c); [exact IH | congruence].
Qed.

Lemma contains_here (needle after : string) :
  contains needle (needle ++ after) = true.
Proof. rewrite contains_unfold, prefix_self. reflexivity. Qed.

Lemma contains_after (needle before haystack : string) :
  contains needle haystack = true ->
  contains needle (before ++ haystack) = true.
Proof.
  intros H. induction before as [|c before IH]; simpl; [exact H|].
  rewrite IH. apply orb_true_r.
Qed.

Lemma contains_before (needle after : string) :
  forall haystack,
    contains needle haystack = true ->
    contains needle (haystack ++ after) = true.
Proof.
  induction haystack as [|c haystack IH]; rewrite contains_unfold; intros H.
  - rewrite orb_false_r in H. rewrite contains_unfold.
    rewrite (prefix_app _ _ after H). reflexivity.
  - apply orb_true_iff in H. destruct H as [H | H].
    + rewrite contains_unfold, (prefix_app _ _ after H). reflexivity.
    + change (String c haystack ++ after) with (String c (haystack ++ after)).
      rewrite contains_unfold, (IH H). apply orb_true_r.
Qed.

Lemma contains_between (needle before after : string) :
  contains needle (before ++ needle ++ after) = true.
Proof. apply contains_after, contains_here. Qed.

Lemma append_empty (s : string) : s ++ "" = s.
Proof. induction s as [|c s IH]; simpl; [reflexivity | now rewrite IH]. Qed.

Lemma contains_self (s : string) : contains s s = true.
Proof. rewrite <- (append_empty s) at 2. apply contains_here. Qed.

(** Every part is a substring of the joined text. *)
Lemma contains_join (sep : string) (parts : list string) (x : string) :
  In x parts -> contains x (join sep parts) = true.
Proof.
  induction parts as [|y rest IH]; simpl; [tauto|].
  intros [-> | Hin].
  - destruct rest; [apply contains_self | apply contains_here].
  - destruct rest as [|z rest]; [destruct Hin|].
    apply contains_after, contains_after, IH, Hin.
Qed.

Lemma list_contains_In (x : string) (l : list string) :
  Py.list_contains x l = true <-> In x l.
Proof.
  induction l as [|y l IH]; simpl; [split; [discriminate | tauto]|].
  rewrite orb_true_iff, IH, String.eqb_eq. split; intros [H | H]; auto.
Qed.

(** *** Case *)

Lemma upper_char_capital (c : ascii) :
  (65 <= N_of_ascii c <= 90)%N ->
  upper_char c = c /\ upper_char (ascii_of_N (N_of_ascii c + 32)) = c.
Proof.
  intros H. unfold upper_char.
  rewrite N_ascii_embedding by lia.
  replace ((97 <=? N_of_ascii c) && (N_of_ascii c <=? 122))%N with false.
  2:{ symmetry. apply andb_false_iff. left. apply N.leb_gt. lia. }
  replace ((97 <=? N_of_ascii c + 32) && (N_of_ascii c + 32 <=? 122))%N
    with true.
  2:{ symmetry. apply andb_true_iff. split; apply N.leb_le; lia. }
  split; [reflexivity|].
  replace (N_of_ascii c + 32 - 32)%N with (N_of_ascii c) by lia.
  apply ascii_N_embedding.
Qed.

(** Strings that differ only in the case of letters have the same
    [upper]. *)
Lemma upper_case_variant (s t : string) :
  case_variant s t -> upper s = upper t.
Proof.
  induction 1 as [|c s t _ IH|c s t Hc _ IH|c s t Hc _ IH]; simpl.
  - reflexivity.
  - now rewrite IH.
  - destruct (upper_char_capital c Hc) as [-> ->]. now rewrite IH.
  - destruct (upper_char_capital c Hc) as [-> ->]. now rewrite IH.
Qed.

Lemma case_variant_sym (s t : string) : case_variant s t -> case_variant t s.
Proof. induction 1; constructor; assumption. Qed.

(** A string is a case variant of its [upper]. *)
Lemma case_variant_upper (s : string) : case_variant s (upper s).
Proof.
  induction s as [|c s IH]; simpl; [constructor|].
  unfold upper_char.
  destruct ((97 <=? N_of_ascii c) && (N_of_ascii c <=? 122))%N eqn:E;
    [|now constructor].
  apply andb_true_iff in E. destruct E as [E1 E2].
  apply N.leb_le in E1, E2.
  pose proof (N_ascii_embedding (N_of_ascii c - 32)) as Hemb.
  assert (Hc : c = ascii_of_N (N_of_ascii (ascii_of_N (N_of_ascii c - 32)) + 32)).
  { rewrite Hemb by lia.
    replace (N_of_ascii c - 32 + 32)%N with (N_of_ascii c) by lia.
    symmetry. apply ascii_N_embedding. }
  rewrite Hc at 1. apply cv_upper; [rewrite Hemb; lia | exact IH].
Qed.

End PyTextFacts.

(** ** Dates and the string order *)

Module IsoDateFacts.

Import IsoDate.
Local Open Scope nat_scope.

Lemma digit_compare (a b : nat) :
  a < 10 -> b < 10 -> Ascii.compare (digit a) (digit b) = Nat.compare a b.
Proof.
  intros Ha Hb. unfold Ascii.compare, digit, ascii_of_nat.
  rewrite !N_ascii_embedding by lia.
  rewrite <- Nat2N.inj_compare.
  destruct (Nat.compare_spec a b) as [H | H | H];
    [apply Nat.compare_eq_iff | apply Nat.compare_lt_iff | apply Nat.compare_gt_iff];
    lia.
Qed.

Lemma compare_div_mod (n a b : nat) :
  n <> 0 ->
  Nat.compare a b =
  match Nat.compare (a / n) (b / n) with
  | Eq => Nat.compare (a mod n) (b mod n)
  | c => c
  end.
Proof.
  intros Hn.
  pose proof (Nat.div_mod_eq a n) as Ha. pose proof (Nat.div_mod_eq b n) as Hb.
  pose proof (Nat.mod_upper_bound a n Hn) as Ra.
  pose proof (Nat.mod_upper_bound b n Hn) as Rb.
  destruct (Nat.compare_spec (a / n) (b / n)) as [H | H | H].
  - destruct (Nat.compare_spec (a mod n) (b mod n)) as [H' | H' | H'];
      [apply Nat.compare_eq_iff | apply Nat.compare_lt_iff | apply Nat.compare_gt_iff];
      rewrite Ha, Hb, H; lia.
  - apply Nat.compare_lt_iff. nia.
  - apply Nat.compare_gt_iff. nia.
Qed.

Lemma two_digits_compare (a b : nat) (s t : string) :
  a < 100 -> b < 100 ->
  String.compare (two_digits a s) (two_digits b t) =
  match Nat.compare a b with
  | Eq => String.compare s t
  | c => c
  end.
Proof.
  intros Ha Hb. unfold two_digits. cbn [String.compare].
  assert (a / 10 < 10) by (apply Nat.Div0.div_lt_upper_bound; lia).
  assert (b / 10 < 10) by (apply Nat.Div0.div_lt_upper_bound; lia).
  assert (a mod 10 < 10) by (apply Nat.mod_upper_bound; lia).
  assert (b mod 10 < 10) by (apply Nat.mod_upper_bound; lia).
  rewrite !digit_compare by assumption.
  rewrite (compare_div_mod 10 a b) by lia.
  destruct (Nat.compare (a / 10) (b / 10)); [|reflexivity|reflexivity].
  destruct (Nat.compare (a mod 10) (b mod 10)); reflexivity.
Qed.

Lemma four_digits_compare (a b : nat) (s t : string) :
  a < 10000 -> b < 10000 ->
  String.compare (four_digits a s) (four_digits b t) =
  match Nat.compare a b with
  | Eq => String.compare s t
  | c => c
  end.
Proof.
  assert (E : 10000 = 100 * 100) by reflexivity. rewrite E.
  intros Ha Hb. unfold four_digits.
  assert (a / 100 < 100) by (apply Nat.Div0.div_lt_upper_bound; lia).
  assert (b / 100 < 100) by (apply Nat.Div0.div_lt_upper_bound; lia).
  assert (a mod 100 < 100) by (apply Nat.mod_upper_bound; lia).
  assert (b mod 100 < 100) by (apply Nat.mod_upper_bound; lia).
  rewrite !two_digits_compare by assumption.
  rewrite (compare_div_mod 100 a b) by lia.
  destruct (Nat.compare (a / 100) (b / 100)); reflexivity.
Qed.

(** On well-formed dates the string order of the YYYY-MM-DD texts is the
    chronological order. *)
Lemma text_compare (a b : date) :
  well_formed a -> well_formed b ->
  String.compare (text a) (text b) = compare a b.
Proof.
  intros (Hy & Hm & Hd) (Hy' & Hm' & Hd'). unfold text, compare, dash.
  rewrite four_digits_compare by assumption.
  destruct (Nat.compare (year a) (year b)); [|reflexivity|reflexivity].
  cbn [String.compare]. rewrite PyStrFacts.ascii_compare_refl.
  rewrite two_digits_compare by lia.
  destruct (Nat.compare (month a) (month b)); [|reflexivity|reflexivity].
  cbn [String.compare]. rewrite PyStrFacts.ascii_compare_refl.
  rewrite two_digits_compare by lia.
  destruct (Nat.compare (day a) (day b)); reflexivity.
Qed.

Example text_of_a_date :
  text {| year := 2025; month := 3; day := 31 |} = "2025-03-31".
Proof. reflexivity. Qed.

End IsoDateFacts.

(** ** The lookup tools at their edges *)

Module ToolsEdgeFacts.

Import Json Py Tools PyText.

Lemma le_antisym (a b : string) : PyStr.le a b -> PyStr.le b a -> a = b.
Proof.
  unfold PyStr.le. rewrite (String.compare_antisym b a).
  destruct (String.compare a b) eqn:E; simpl; intros H1 H2.
  - now apply String.compare_eq_iff.
  - congruence.
  - congruence.
Qed.

Lemma lookup_In {V} (k : string) (v : V) (d : dict V) :
  lookup k d = Some v -> In (k, v) d.
Proof.
  induction d as [|[k' v'] d IH]; simpl; [discriminate|].
  destruct (String.eqb_spec k k') as [-> | Hne].
  - intros H. injection H as ->. now left.
  - intros H. right. auto.
Qed.

Lemma In_lookup {V} (k : string) (v : V) (d : dict V) :
  NoDup (keys d) -> In (k, v) d -> lookup k d = Some v.
Proof.
  induction d as [|[k' v'] d IH]; simpl; [tauto|].
  intros Hnd [H | H].
  - injection H as -> ->. now rewrite String.eqb_refl.
  - inversion Hnd as [|? ? Hnotin Hnd']; subst.
    destruct (String.eqb_spec k k') as [-> | Hne]; [|auto].
    exfalso. apply Hnotin. unfold keys.
    change k' with (fst (k', v)). now apply in_map.
Qed.

(** [max] does not depend on the order of the items. *)
Lemma max_permutation (l l' : list string) :
  Permutation l l' -> max l = max l'.
Proof.
  intros Hp.
  destruct l as [|x l0] eqn:El.
  - now rewrite (Permutation_nil Hp).
  - destruct l' as [|y l0'] eqn:El'.
    + apply Permutation_sym, Permutation_nil in Hp. discriminate.
    + destruct (ToolsFacts.max_nonempty (x :: l0)) as [m Hm]; [discriminate|].
      destruct (ToolsFacts.max_nonempty (y :: l0')) as [m' Hm']; [discriminate|].
      rewrite Hm, Hm'. f_equal.
      destruct (ToolsFacts.max_spec _ _ Hm) as [Hin Hub].
      destruct (ToolsFacts.max_spec _ _ Hm') as [Hin' Hub'].
      apply le_antisym.
      * apply Hub'. now apply (Permutation_in _ Hp).
      * apply Hub. now apply (Permutation_in _ (Permutation_sym Hp)).
Qed.

Lemma lookup_permutation {V} (k : string) (d d' : dict V) :
  NoDup (keys d) -> Permutation d d' -> In k (keys d) ->
  lookup k d = lookup k d'.
Proof.
  intros Hnd Hp Hin.
  destruct (ToolsFacts.lookup_key _ _ Hin) as [v Hv]. rewrite Hv. symmetry.
  apply In_lookup.
  - apply (Permutation_NoDup (l := keys d)); [|assumption].
    now apply Permutation_map.
  - apply (Permutation_in _ Hp). now apply lookup_In.
Qed.

(** X1.  [get_latest_metrics] raises nothing but [ValueError], and raises
    it exactly for a symbol that passes the guard and whose per-date
    mapping is empty. *)
Theorem get_latest_metrics_raises (g : globals) (symbol : string) :
  (forall e, fst (get_latest_metrics symbol g) = Raise e -> e = ValueError) /\
  (fst (get_latest_metrics symbol g) = Raise ValueError <->
   valid g symbol = true /\ lookup symbol (METRICS g) = Some []).
Proof.
  destruct (valid g symbol) eqn:Hv.
  - destruct (ToolsFacts.valid_stored _ _ Hv) as [per_date Hl].
    rewrite (ToolsFacts.get_latest_metrics_valid _ _ _ Hv Hl), Hl.
    destruct per_date as [|item items].
    + simpl. split; [intros e H; congruence | tauto].
    + destruct (max (keys (item :: items))) as [latest_date|e0] eqn:Hmax;
        [|destruct item; discriminate].
      destruct (ToolsFacts.max_spec _ _ Hmax) as [Hin _].
      destruct (ToolsFacts.lookup_key _ _ Hin) as [latest_data ->]. simpl.
      split; [discriminate|]. split; [discriminate|].
      intros [_ H]. discriminate.
  - rewrite (ToolsFacts.get_latest_metrics_invalid _ _ Hv). simpl.
    split; [discriminate|]. split; [discriminate|]. intros [H _]. discriminate.
Qed.

(** X2.  The latest-scope result does not depend on the order in which the
    dates of a symbol are stored: two tables with the same whitelist whose
    per-date mappings for the symbol hold the same items, with distinct
    keys, give the same outcome. *)
Theorem latest_ignores_date_order (g g' : globals) (symbol : string)
  (per_date per_date' : dict json) :
  SYMBOLS g = SYMBOLS g' ->
  lookup symbol (METRICS g) = Some per_date ->
  lookup symbol (METRICS g') = Some per_date' ->
  NoDup (keys per_date) ->
  Permutation per_date per_date' ->
  fst (get_latest_metrics symbol g) = fst (get_latest_metrics symbol g').
Proof.
  intros Hs Hl Hl' Hnd Hp.
  assert (Hv : valid g' symbol = valid g symbol).
  { unfold valid, dict_contains. now rewrite Hs, Hl, Hl'. }
  destruct (valid g symbol) eqn:E.
  - rewrite (ToolsFacts.get_latest_metrics_valid _ _ _ E Hl),
            (ToolsFacts.get_latest_metrics_valid _ _ _ Hv Hl').
    assert (Hk : Permutation (keys per_date) (keys per_date'))
      by now apply Permutation_map.
    rewrite <- (max_permutation _ _ Hk).
    destruct (max (keys per_date)) as [latest_date|e] eqn:Hmax; [|reflexivity].
    destruct (ToolsFacts.max_spec _ _ Hmax) as [Hin _].
    rewrite <- (lookup_permutation latest_date _ _ Hnd Hp Hin).
    destruct (lookup latest_date per_date); reflexivity.
  - now rewrite (ToolsFacts.get_latest_metrics_invalid _ _ E),
                (ToolsFacts.get_latest_metrics_invalid _ _ Hv).
Qed.

Lemma latest_ignores_date_order_witness :
  fst (get_latest_metrics "AAPL.US"
         (load [("AAPL.US", [("2024-12-31", JNull); ("2025-03-31", JBool true)])]))
  = fst (get_latest_metrics "AAPL.US"
           (load [("AAPL.US", [("2025-03-31", JBool true); ("2024-12-31", JNull)])])).
Proof.
  apply (latest_ignores_date_order
           (load [("AAPL.US", [("2024-12-31", JNull); ("2025-03-31", JBool true)])])
           (load [("AAPL.US", [("2025-03-31", JBool true); ("2024-12-31", JNull)])])
           "AAPL.US"
           [("2024-12-31", JNull); ("2025-03-31", JBool true)]
           [("2025-03-31", JBool true); ("2024-12-31", JNull)]).
  - reflexivity.
  - reflexivity.
  - reflexivity.
  - repeat constructor; simpl; intuition discriminate.
  - apply perm_swap.
Defined.

(** The all-scope result does depend on that order. *)
Example all_keeps_date_order :
  fst (get_all_metrics "AAPL.US"
         (load [("AAPL.US", [("2024-12-31", JNull); ("2025-03-31", JBool true)])]))
  <> fst (get_all_metrics "AAPL.US"
            (load [("AAPL.US", [("2025-03-31", JBool true); ("2024-12-31", JNull)])])).
Proof. vm_compute. discriminate. Qed.

(** X3.  When the date keys of a valid symbol are the YYYY-MM-DD texts of
    well-formed dates, the one key of the latest-scope result is the text
    of the chronologically last of these dates. *)
Theorem latest_is_chronologically_last (g : globals) (symbol : string)
  (rows : list (IsoDate.date * json)) :
  list_contains symbol (SYMBOLS g) = true ->
  lookup symbol (METRICS g)
    = Some (map (fun row => (IsoDate.text (fst row), snd row)) rows) ->
  rows <> [] ->
  Forall (fun row => IsoDate.well_formed (fst row)) rows ->
  exists last_date data,
    In last_date (map fst rows) /\
    (forall d, In d (map fst rows) -> IsoDate.not_after d last_date) /\
    fst (get_latest_metrics symbol g)
      = Return (dumps (JObject [(IsoDate.text last_date, data)])).
Proof.
  intros Hw Hl Hne Hwf.
  set (per_date := map (fun row => (IsoDate.text (fst row), snd row)) rows) in *.
  assert (Hv : valid g symbol = true).
  { unfold valid, dict_contains. now rewrite Hw, Hl. }
  assert (Hkeys : keys per_date = map IsoDate.text (map fst rows)).
  { unfold keys, per_date. rewrite !map_map. reflexivity. }
  assert (Hk : keys per_date <> []).
  { rewrite Hkeys. destruct rows; [congruence | discriminate]. }
  destruct (ToolsFacts.max_nonempty _ Hk) as [latest_date Hmax].
  destruct (ToolsFacts.max_spec _ _ Hmax) as [Hin Hub].
  destruct (ToolsFacts.lookup_key _ _ Hin) as [latest_data Hdata].
  rewrite Hkeys in Hin. apply in_map_iff in Hin.
  destruct Hin as (last_date & <- & Hlast).
  exists last_date, latest_data. split; [exact Hlast|]. split.
  - intros d Hd. unfold IsoDate.not_after.
    rewrite Forall_forall in Hwf.
    assert (Hwf_of : forall x, In x (map fst rows) -> IsoDate.well_formed x).
    { intros x Hx. apply in_map_iff in Hx. destruct Hx as (row & <- & Hrow).
      now apply Hwf. }
    rewrite <- IsoDateFacts.text_compare by auto.
    apply Hub. rewrite Hkeys. now apply in_map.
  - rewrite (ToolsFacts.get_latest_metrics_valid _ _ _ Hv Hl), Hmax, Hdata.
    reflexivity.
Qed.

Lemma latest_is_chronologically_last_witness :
  exists last_date data,
    In last_date [IsoDate.mkDate 2024 12 31; IsoDate.mkDate 2025 3 31;
                  IsoDate.mkDate 2024 9 30] /\
    (forall d, In d [IsoDate.mkDate 2024 12 31; IsoDate.mkDate 2025 3 31;
                     IsoDate.mkDate 2024 9 30] ->
               IsoDate.not_after d last_date) /\
    fst (get_latest_metrics "TSLA.US"
           (load [("TSLA.US", [("2024-12-31", JNull); ("2025-03-31", JBool true);
                               ("2024-09-30", JNull)])]))
      = Return (dumps (JObject [(IsoDate.text last_date, data)])).
Proof.
  apply (latest_is_chronologically_last
           (load [("TSLA.US", [("2024-12-31", JNull); ("2025-03-31", JBool true);
                               ("2024-09-30", JNull)])])
           "TSLA.US"
           [(IsoDate.mkDate 2024 12 31, JNull);
            (IsoDate.mkDate 2025 3 31, JBool true);
            (IsoDate.mkDate 2024 9 30, JNull)]).
  - reflexivity.
  - reflexivity.
  - discriminate.
  - repeat constructor; simpl; lia.
Defined.

(** Without the padding the string order is not the order of the dates. *)
Example unpadded_dates_mislead :
  fst (get_latest_metrics "TSLA.US"
         (load [("TSLA.US", [("2025-12-31", JNull); ("2025-3-31", JBool true)])]))
  = Return (q "{'2025-3-31': true}").
Proof. reflexivity. Qed.

Lemma append_assoc (a b c : string) : (a ++ b) ++ c = a ++ b ++ c.
Proof. induction a as [|x a IH]; simpl; [reflexivity | now rewrite IH]. Qed.

(** The text of an object is its items' texts joined by [", "], in
    braces. *)
Lemma dumps_object (items : list (string * json)) :
  dumps (JObject items) = "{" ++ join ", " (map item_text items) ++ "}".
Proof.
  cbn [dumps]. f_equal. f_equal.
  induction items as [|[k x] rest IH]; [reflexivity|].
  destruct rest as [|next rest].
  - reflexivity.
  - cbn [map join] in IH |- *. rewrite <- IH. unfold item_text at 1.
    cbn [fst snd]. now rewrite !append_assoc.
Qed.

(** X4.  The two scopes agree: for a valid symbol with a non-empty per-date
    mapping, the latest-scope text is one item in braces, that item is an
    item of the stored mapping, and its text occurs verbatim in the
    all-scope text. *)
Theorem latest_item_occurs_in_all (g : globals) (symbol : string)
  (per_date : dict json) :
  list_contains symbol (SYMBOLS g) = true ->
  lookup symbol (METRICS g) = Some per_date ->
  per_date <> [] ->
  exists item all,
    In item per_date /\
    fst (get_latest_metrics symbol g) = Return ("{" ++ item_text item ++ "}") /\
    fst (get_all_metrics symbol g) = Return all /\
    PyStr.contains (item_text item) all = true.
Proof.
  intros Hw Hl Hne.
  assert (Hv : valid g symbol = true).
  { unfold valid, dict_contains. now rewrite Hw, Hl. }
  assert (Hk : keys per_date <> []).
  { destruct per_date; [congruence | discriminate]. }
  destruct (ToolsFacts.max_nonempty _ Hk) as [latest_date Hmax].
  destruct (ToolsFacts.max_spec _ _ Hmax) as [Hin _].
  destruct (ToolsFacts.lookup_key _ _ Hin) as [latest_data Hdata].
  exists (latest_date, latest_data), (dumps (JObject per_date)).
  split; [now apply lookup_In|]. split; [|split].
  - rewrite (ToolsFacts.get_latest_metrics_valid _ _ _ Hv Hl), Hmax, Hdata.
    cbn [fst]. now rewrite dumps_object.
  - now rewrite (ToolsFacts.get_all_metrics_valid _ _ _ Hv Hl).
  - rewrite dumps_object.
    apply (PyTextFacts.contains_after _ "{"), PyTextFacts.contains_before,
          PyTextFacts.contains_join, in_map, lookup_In, Hdata.
Qed.

Lemma latest_item_occurs_in_all_witness :
  exists item all,
    In item [("2024-12-31", JNull); ("2025-03-31", JBool true)] /\
    fst (get_latest_metrics "AAPL.US"
           (load [("AAPL.US", [("2024-12-31", JNull); ("2025-03-31", JBool true)])]))
      = Return ("{" ++ item_text item ++ "}") /\
    fst (get_all_metrics "AAPL.US"
           (load [("AAPL.US", [("2024-12-31", JNull); ("2025-03-31", JBool true)])]))
      = Return all /\
    PyStr.contains (item_text item) all = true.
Proof.
  apply (latest_item_occurs_in_all
           (load [("AAPL.US", [("2024-12-31", JNull); ("2025-03-31", JBool true)])])
           "AAPL.US" [("2024-12-31", JNull); ("2025-03-31", JBool true)]).
  - reflexivity.
  - reflexivity.
  - discriminate.
Defined.

End ToolsEdgeFacts.

(** ** The tools of the introductory notebook *)

Module IntroFacts.

Import PrimFloat.
Import Py PyText Intro.

Lemma upper_of_variant (ticker listed : string) :
  upper listed = listed -> case_variant ticker listed -> upper ticker = listed.
Proof. intros Hu Hv. now rewrite (PyTextFacts.upper_case_variant _ _ Hv). Qed.

Lemma variant_of_upper (ticker listed : string) :
  upper ticker = listed -> case_variant ticker listed.
Proof. intros <-. apply PyTextFacts.case_variant_upper. Qed.

(** X5.  For an ASCII ticker, [get_news_headlines] returns the three AAPL
    headlines when the ticker is AAPL in any mix of upper and lower case,
    and the single line "No material headlines found." for every other
    ticker; it never returns an empty list. *)
Theorem get_news_headlines_cases (ticker : string) :
  is_ascii ticker = true ->
  get_news_headlines ticker <> [] /\
  (case_variant ticker "AAPL" ->
   get_news_headlines ticker = get_news_headlines "AAPL" /\
   length (get_news_headlines ticker) = 3) /\
  (~ case_variant ticker "AAPL" ->
   get_news_headlines ticker = ["No material headlines found."]).
Proof.
  intros _. unfold get_news_headlines, dict_get, sample_news. cbn [lookup].
  destruct (String.eqb_spec (upper ticker) "AAPL") as [E | E].
  - split; [discriminate|]. split; [intros _; split; reflexivity|].
    intros H. destruct H. now apply variant_of_upper.
  - split; [discriminate|]. split; [|reflexivity].
    intros H. destruct E. now apply upper_of_variant.
Qed.

Lemma get_news_headlines_cases_witness :
  get_news_headlines "aApL" = get_news_headlines "AAPL" /\
  length (get_news_headlines "aApL") = 3.
Proof.
  apply (get_news_headlines_cases "aApL"); [reflexivity|].
  apply (cv_upper "A"), (cv_same "A"), (cv_upper "P"), (cv_same "L"), cv_empty;
    simpl; lia.
Defined.

(** X6.  For an ASCII ticker, [get_stock_price] returns the price of the
    table when the ticker is one of its keys in any mix of upper and lower
    case, whatever the random source holds, and the value of
    [random.uniform(50, 500)] for every other ticker; either way the call
    takes exactly one value from the random source. *)
Theorem get_stock_price_cases (ticker : string) (st : random_state) :
  is_ascii ticker = true ->
  (forall listed price,
      In (listed, price) price_table -> case_variant ticker listed ->
      fst (get_stock_price ticker st) = price) /\
  ((forall listed price,
       In (listed, price) price_table -> ~ case_variant ticker listed) ->
   fst (get_stock_price ticker st) = fst (uniform 50 500 st)) /\
  snd (get_stock_price ticker st) = snd (random st).
Proof.
  intros _. unfold get_stock_price, uniform, random, dict_get. cbn [fst snd].
  split; [|split; [|reflexivity]].
  - intros listed price Hin Hv.
    assert (Hu : upper ticker = listed).
    { apply upper_of_variant; [|exact Hv].
      destruct Hin as [H | [H | [H | []]]]; injection H as <- _; reflexivity. }
    rewrite Hu.
    destruct Hin as [H | [H | [H | []]]]; injection H as <- <-; reflexivity.
  - intros Hnone.
    destruct (lookup (upper ticker) price_table) as [price|] eqn:E;
      [|reflexivity].
    apply ToolsEdgeFacts.lookup_In in E.
    destruct (Hnone _ _ E). apply PyTextFacts.case_variant_upper.
Qed.

Lemma get_stock_price_cases_witness :
  fst (get_stock_price "msft" {| draws := fun _ => 0.25%float; taken := 7 |})
  = 410.22%float.
Proof.
  refine (proj1 (get_stock_price_cases "msft"
                   {| draws := fun _ => 0.25%float; taken := 7 |} _)
                "MSFT" 410.22%float _ _).
  - reflexivity.
  - right. left. reflexivity.
  - apply (cv_upper "M"), (cv_upper "S"), (cv_upper "F"), (cv_upper "T"), cv_empty;
      simpl; lia.
Defined.

Example unknown_ticker_price :
  get_stock_price "TSLA" {| draws := fun _ => 0.25%float; taken := 7 |}
  = (162.5%float, {| draws := fun _ => 0.25%float; taken := 8 |}).
Proof. reflexivity. Qed.

(** With the price table as it is, the cell computes a move of about
    -6.17 percent for AAPL, so [team_demo] takes the branch that alerts the
    team, whatever the random source holds. *)
Lemma team_demo_alerts (st : random_state) :
  alerts (fst (now_price st)) = true.
Proof. reflexivity. Qed.

End IntroFacts.

(** ** The chain of the finance demo *)

Module PipelineFacts.

Import Py PyText Pipeline.

(** X7.  The planner's system message names every ticker of the whitelist,
    hence every symbol that can pass the guard of the lookup tools. *)
Theorem planner_is_offered_the_whitelist (g : globals) (symbol : string) :
  list_contains symbol (SYMBOLS g) = true ->
  PyStr.contains symbol (PLANNER_SYS g) = true.
Proof.
  intros H. apply PyTextFacts.list_contains_In in H. unfold PLANNER_SYS.
  do 4 apply PyTextFacts.contains_after.
  apply PyTextFacts.contains_before. now apply PyTextFacts.contains_join.
Qed.

Lemma planner_is_offered_the_whitelist_witness :
  PyStr.contains "AMZN.US" (PLANNER_SYS (Tools.load Tools.sample_metrics)) = true.
Proof.
  apply (planner_is_offered_the_whitelist (Tools.load Tools.sample_metrics)
           "AMZN.US").
  reflexivity.
Defined.

Example planner_prompt :
  PLANNER_SYS (Tools.load [])
  = nl ++ "Rewrite the user question briefly." ++ nl ++
    "Pick ONE ticker from: TSLA.US, AMZN.US, AAPL.US." ++ nl ++
    "Return JSON ONLY: {'refined':'...','symbol':'<ticker>','scope':'latest'|'all'}"
    ++ nl.
Proof. reflexivity. Qed.

(** *** Picking the data message *)

Local Open Scope list_scope.

Lemma last_item_snoc {A} (l : list A) (x : A) : last_item (l ++ [x]) = Ok x.
Proof.
  induction l as [|y l IH]; [reflexivity|].
  change ((y :: l) ++ [x]) with (y :: (l ++ [x])). cbn [last_item].
  destruct (l ++ [x]) eqn:E; [destruct l; discriminate | exact IH].
Qed.

Lemma last_item_ok {A} (l : list A) (x : A) :
  last_item l = Ok x <-> exists before, l = before ++ [x].
Proof.
  split.
  - destruct l as [|y l] using rev_ind; [discriminate|].
    rewrite last_item_snoc. intros H. injection H as ->. eauto.
  - intros [before ->]. apply last_item_snoc.
Qed.

Lemma last_item_error {A} (l : list A) :
  last_item l = Error IndexError <-> l = [].
Proof.
  split; [|intros ->; reflexivity].
  destruct l as [|y l] using rev_ind; [reflexivity|].
  rewrite last_item_snoc. discriminate.
Qed.

Lemma filter_ends_with {A} (f : A -> bool) (l : list A) :
  forall kept m,
    filter f l = kept ++ [m] <->
    exists before after,
      l = before ++ m :: after /\ f m = true /\
      filter f before = kept /\
      (forall x, In x after -> f x = false).
Proof.
  induction l as [|x l IH] using rev_ind; intros kept m.
  - split.
    + intros H. destruct kept; discriminate.
    + intros (before & after & H & _). destruct before; discriminate.
  - rewrite filter_app. cbn [filter]. destruct (f x) eqn:Ex.
    + split.
      * intros H. apply app_inj_tail in H. destruct H as [H <-].
        exists l, []. repeat split; auto. intros y [].
      * intros (before & after & H & Hm & Hk & Hnone).
        destruct after as [|z after] using rev_ind.
        -- apply app_inj_tail in H. destruct H as [-> ->]. now rewrite Hk.
        -- clear IHafter.
           rewrite app_comm_cons, app_assoc in H. apply app_inj_tail in H.
           destruct H as [_ ->].
           rewrite Hnone in Ex by (apply in_or_app; right; now left).
           discriminate.
    + rewrite app_nil_r, IH. split.
      * intros (before & after & -> & Hm & Hk & Hnone).
        exists before, (after ++ [x]). rewrite <- app_assoc.
        repeat split; auto.
        intros y Hy. apply in_app_or in Hy. destruct Hy as [Hy | [<- | []]]; auto.
      * intros (before & after & H & Hm & Hk & Hnone).
        destruct after as [|z after] using rev_ind.
        -- apply app_inj_tail in H. destruct H as [_ ->]. congruence.
        -- clear IHafter.
           rewrite app_comm_cons, app_assoc in H. apply app_inj_tail in H.
           destruct H as [-> _].
           exists before, after. repeat split; auto.
           intros y Hy. apply Hnone. apply in_or_app. now left.
Qed.

Lemma filter_nothing {A} (f : A -> bool) (l : list A) :
  filter f l = [] <-> forall x, In x l -> f x = false.
Proof.
  induction l as [|x l IH]; simpl; [tauto|].
  destruct (f x) eqn:E.
  - split; [discriminate|]. intros H. specialize (H x (or_introl eq_refl)).
    congruence.
  - rewrite IH. split.
    + intros H y [<- | Hy]; auto.
    + intros H y Hy. auto.
Qed.

Lemma executor_data_ok (messages : list AgentMessage) (data : string) :
  executor_data messages = Ok data <->
  exists before m after,
    messages = before ++ m :: after /\
    is_executor_text m = true /\
    (forall x, In x after -> is_executor_text x = false) /\
    content m = data.
Proof.
  unfold executor_data. split.
  - destruct (last_item (filter is_executor_text messages)) as [m|e] eqn:E;
      [|discriminate].
    intros H. injection H as <-.
    apply last_item_ok in E. destruct E as [kept E].
    apply filter_ends_with in E.
    destruct E as (before & after & -> & Hm & _ & Hnone).
    exists before, m, after. auto.
  - intros (before & m & after & -> & Hm & Hnone & <-).
    assert (E : filter is_executor_text (before ++ m :: after)
                = filter is_executor_text before ++ [m]).
    { apply filter_ends_with. exists before, after. auto. }
    now rewrite E, last_item_snoc.
Qed.

Lemma executor_data_error (messages : list AgentMessage) :
  executor_data messages = Error IndexError <->
  forall m, In m messages -> is_executor_text m = false.
Proof.
  unfold executor_data. rewrite <- filter_nothing, <- last_item_error.
  destruct (last_item (filter is_executor_text messages)) as [m|[]];
    split; congruence.
Qed.

(** X8.  The data [answer] takes from the run of the executor team is the
    content of the last message whose source is ExecutorWorker and whose
    type is TextMessage, whatever follows it; taking it raises
    [IndexError] exactly when the run holds no such message. *)
Theorem executor_data_is_last_executor_text (messages : list AgentMessage) :
  (forall data,
      executor_data messages = Ok data <->
      exists before m after,
        messages = before ++ m :: after /\
        is_executor_text m = true /\
        (forall x, In x after -> is_executor_text x = false) /\
        content m = data) /\
  (executor_data messages = Error IndexError <->
   forall m, In m messages -> is_executor_text m = false).
Proof.
  unfold executor_data. split.
  - intros data. split.
    + destruct (last_item (filter is_executor_text messages)) as [m|e] eqn:E;
        [|discriminate].
      intros H. injection H as <-.
      apply last_item_ok in E. destruct E as [kept E].
      apply filter_ends_with in E.
      destruct E as (before & after & -> & Hm & _ & Hnone).
      exists before, m, after. auto.
    + intros (before & m & after & -> & Hm & Hnone & <-).
      assert (E : filter is_executor_text (before ++ m :: after)
                  = filter is_executor_text before ++ [m]).
      { apply filter_ends_with. exists before, after. auto. }
      now rewrite E, last_item_snoc.
  - rewrite <- filter_nothing, <- last_item_error.
    destruct (last_item (filter is_executor_text messages)) as [m|[]];
      split; congruence.
Qed.

(** *** The whole chain *)

(** X9.  [answer] returns exactly when the planner's run is not empty, the
    executor team's run on the planner's last message holds a text message
    of ExecutorWorker, and the financial agent's run is not empty; the
    financial agent is then run on the question, the planner's last message
    and the last such executor text, and its last message is the answer.
    In every other case [answer] raises [IndexError]. *)
Theorem answer_chain
  (Planner executor_chat Financial : string -> list AgentMessage) (q : string) :
  (forall a,
      answer Planner executor_chat Financial q = Ok a <->
      exists plan_before plan_msg before m after fin_before fin_msg,
        Planner q = plan_before ++ [plan_msg] /\
        executor_chat (content plan_msg) = before ++ m :: after /\
        is_executor_text m = true /\
        (forall x, In x after -> is_executor_text x = false) /\
        Financial (financial_task q (content plan_msg) (content m))
          = fin_before ++ [fin_msg] /\
        a = content fin_msg) /\
  (answer Planner executor_chat Financial q = Error IndexError <->
   Planner q = [] \/
   exists plan_before plan_msg,
     Planner q = plan_before ++ [plan_msg] /\
     ((forall m, In m (executor_chat (content plan_msg)) ->
                 is_executor_text m = false) \/
      exists data,
        executor_data (executor_chat (content plan_msg)) = Ok data /\
        Financial (financial_task q (content plan_msg) data) = [])).
Proof.
  unfold answer. split.
  - intros a. split.
    + destruct (last_item (Planner q)) as [plan_msg|e] eqn:Ep; [|discriminate].
      destruct (executor_data (executor_chat (content plan_msg)))
        as [data|e] eqn:Ed; [|discriminate].
      destruct (last_item (Financial _)) as [fin_msg|e] eqn:Ef; [|discriminate].
      intros H. injection H as <-.
      apply last_item_ok in Ep, Ef.
      destruct Ep as [plan_before Ep], Ef as [fin_before Ef].
      apply executor_data_ok in Ed.
      destruct Ed as (before & m & after & Ee & Hm & Hnone & <-).
      exists plan_before, plan_msg, before, m, after, fin_before, fin_msg.
      auto 10.
    + intros (plan_before & plan_msg & before & m & after & fin_before & fin_msg
              & Ep & Ee & Hm & Hnone & Ef & ->).
      rewrite Ep, last_item_snoc.
      assert (Ed : executor_data (executor_chat (content plan_msg))
                   = Ok (content m)).
      { apply executor_data_ok. exists before, m, after. auto. }
      now rewrite Ed, Ef, last_item_snoc.
  - destruct (last_item (Planner q)) as [plan_msg|[]] eqn:Ep.
    + apply last_item_ok in Ep. destruct Ep as [plan_before Ep].
      assert (Hsame : forall pb pm, Planner q = pb ++ [pm] -> pm = plan_msg).
      { intros pb pm H. rewrite Ep in H. now apply app_inj_tail in H. }
      destruct (executor_data (executor_chat (content plan_msg)))
        as [data|[]] eqn:Ed.
      * destruct (last_item (Financial _)) as [fin_msg|[]] eqn:Ef.
        -- split; [discriminate|].
           intros [H | (pb & pm & H & [Hnone | (d & Hd & Hf)])].
           ++ rewrite Ep in H. destruct plan_before; discriminate.
           ++ rewrite (Hsame _ _ H) in Hnone.
              apply executor_data_error in Hnone. congruence.
           ++ rewrite (Hsame _ _ H) in Hd, Hf.
              assert (d = data) by congruence. subst d.
              rewrite Hf in Ef. discriminate.
        -- split; [|reflexivity]. intros _. right.
           exists plan_before, plan_msg. split; [exact Ep|]. right.
           exists data. split; [exact Ed|]. now apply last_item_error.
      * split; [|reflexivity]. intros _. right.
        exists plan_before, plan_msg. split; [exact Ep|]. left.
        now apply executor_data_error.
    + split; [|reflexivity]. intros _. left. now apply last_item_error.
Qed.

(** The run kept in the notebook, with its texts shortened. *)
Example recorded_answer :
  answer
    (fun q => [mkAgentMessage "user" "TextMessage" q;
               mkAgentMessage "Planner" "TextMessage" "{'symbol':'TSLA.US'}"])
    (fun plan =>
       [mkAgentMessage "user" "TextMessage" plan;
        mkAgentMessage "ExecutorWorker" "ToolCallRequestEvent" "[FunctionCall]";
        mkAgentMessage "ExecutorWorker" "ToolCallExecutionEvent" "[Result]";
        mkAgentMessage "ExecutorWorker" "TextMessage" "{ ... } APPROVE"])
    (fun task => [mkAgentMessage "user" "TextMessage" task;
                  mkAgentMessage "Financial" "TextMessage" task])
    "Is Tesla's liquidity position improving?"
  = Ok ("user_question:Is Tesla's liquidity position improving?" ++ nl ++
        "refined:{'symbol':'TSLA.US'}" ++ nl ++
        "data_json:{ ... } APPROVE")%string.
Proof. reflexivity. Qed.

Example answer_without_executor_text :
  answer
    (fun q => [mkAgentMessage "user" "TextMessage" q])
    (fun plan =>
       [mkAgentMessage "user" "TextMessage" plan;
        mkAgentMessage "Critic" "TextMessage" "APPROVE"])
    (fun task => [mkAgentMessage "user" "TextMessage" task])
    "q"
  = Error IndexError.
Proof. reflexivity. Qed.

End PipelineFacts.

(** ** The message-count bound on the recorded team *)

Module TeamRunFacts.

Import TeamRun.
Local Open Scope list_scope.
Local Open Scope nat_scope.

(** The model replays the run kept in the notebook: ten messages, the task
    and nine after it, six of them chat messages with the task counted. *)
Example replays_recorded_run :
  option_map (map (fun m => (source m, type m)))
    (team 20 recorded_price_watcher recorded_news_summarizer
          recorded_risk_officer recorded_trader_bot "ALERT ...")
  = Some recorded_run.
Proof. reflexivity. Qed.

Lemma count_chat_app (front back : list Message) :
  count_chat (front ++ back) = count_chat front + count_chat back.
Proof. unfold count_chat. now rewrite filter_app, length_app. Qed.

(** A turn adds exactly one chat message. *)
Lemma count_chat_delta (p : Participant) (r : Response) :
  count_chat (delta p r) = 1.
Proof.
  unfold delta. rewrite count_chat_app.
  assert (H : forall events,
             count_chat (map (fun e => {| source := name p; kind := AgentEvent;
                                          type := fst e; content := snd e |})
                             events) = 0).
  { induction events as [|e events IH]; [reflexivity | exact IH]. }
  rewrite H. reflexivity.
Qed.

Lemma continue_reaches_bound (ps : list Participant) (max_messages : nat) :
  ps <> [] ->
  forall fuel turn thread message_count,
    message_count <= max_messages ->
    max_messages - message_count <= fuel ->
    exists later,
      continue fuel max_messages ps turn thread message_count
        = Some (thread ++ later) /\
      count_chat later = max_messages - message_count.
Proof.
  intros Hne.
  induction fuel as [|remaining IH]; intros turn thread message_count Hle Hfuel;
    cbn [continue].
  - replace (max_messages <=? message_count) with true
      by (symmetry; apply Nat.leb_le; lia).
    exists []. rewrite app_nil_r. split; [reflexivity | unfold count_chat; simpl; lia].
  - destruct (max_messages <=? message_count) eqn:E.
    + apply Nat.leb_le in E. exists []. rewrite app_nil_r.
      split; [reflexivity | unfold count_chat; simpl; lia].
    + apply Nat.leb_gt in E.
      assert (Hlt : turn mod length ps < length ps).
      { apply Nat.mod_upper_bound. destruct ps; simpl; congruence. }
      destruct (nth_error ps (turn mod length ps)) as [p|] eqn:Ep;
        [|apply nth_error_None in Ep; lia].
      rewrite count_chat_delta.
      destruct (IH (S turn) (thread ++ delta p (on_messages p thread))
                   (message_count + 1)) as (later & Hrun & Hcount); [lia | lia |].
      exists (delta p (on_messages p thread) ++ later).
      rewrite app_assoc. split; [exact Hrun|].
      rewrite count_chat_app, count_chat_delta, Hcount. lia.
Qed.

(** C3, as stated, fails on the team of the notebook: with the bound at 6
    the recorded run holds nine messages after the task, five of them chat
    messages; neither number is 6. *)
Lemma recorded_team_run_is_not_six_after_the_task :
  exists thread,
    team 20 recorded_price_watcher recorded_news_summarizer
         recorded_risk_officer recorded_trader_bot "ALERT ..." = Some thread /\
    length (tl thread) = 9 /\ length (tl thread) <> 6 /\
    count_chat (tl thread) = 5 /\ count_chat (tl thread) <> 6.
Proof.
  eexists. split; [reflexivity|]. repeat split; discriminate.
Qed.

(** C3, amended.  For every threshold N of at least 1, a run under a
    message-count bound N of participants whose every turn yields one chat
    message, after any tool-call events, stops, given fuel for N - 1 turns,
    with exactly N chat messages in the thread counting the task message:
    N - 1 chat messages after the task.  The events are not counted. *)
Theorem count_bound_counts_the_task (fuel N : nat) (ps : list Participant)
  (task : string) :
  1 <= N -> ps <> [] -> N - 1 <= fuel ->
  exists after_task,
    run_stream fuel N ps task = Some (task_message task :: after_task) /\
    count_chat (task_message task :: after_task) = N /\
    count_chat after_task = N - 1.
Proof.
  intros HN Hne Hfuel. unfold run_stream.
  change (count_chat [task_message task]) with 1.
  destruct (continue_reaches_bound ps N Hne fuel 0 [task_message task] 1)
    as (later & Hrun & Hcount); [lia | lia |].
  exists later. split; [exact Hrun|].
  change (task_message task :: later) with ([task_message task] ++ later).
  rewrite count_chat_app, Hcount.
  change (count_chat [task_message task]) with 1. split; lia.
Qed.

Lemma count_bound_counts_the_task_witness :
  exists after_task,
    run_stream 5 6
      [recorded_price_watcher; recorded_news_summarizer;
       recorded_risk_officer; recorded_trader_bot] "ALERT ..."
    = Some (task_message "ALERT ..." :: after_task) /\
    count_chat (task_message "ALERT ..." :: after_task) = 6 /\
    count_chat after_task = 6 - 1.
Proof.
  apply (count_bound_counts_the_task 5 6
           [recorded_price_watcher; recorded_news_summarizer;
            recorded_risk_officer; recorded_trader_bot] "ALERT ...").
  - lia.
  - discriminate.
  - simpl. lia.
Defined.

(** With the bound at 1 the task message alone reaches it. *)
Example bound_of_one_stops_at_the_task :
  run_stream 0 1 [recorded_news_summarizer] "hello"
  = Some [task_message "hello"].
Proof. reflexivity. Qed.

End TeamRunFacts.
